(** * Levolor BLE remote: command transport core

    A shallow embedding of the Home Assistant integration
    [custom_components/levolor_ble] (const.py, coordinator.py, cover.py)
    and of the standalone client [levolor_ble.py], followed by the
    properties of the command codec, the delivery attempt, the retry loop
    and the cover entity.

    The BLE stack (bleak, Home Assistant's bluetooth component) is not
    part of the repository.  It is taken as an [Adapter]: an arbitrary
    world type with one transition per primitive.  Every call made to the
    adapter is appended to a call log, so that statements about which
    calls are made, how many, and in which order, are statements about
    that log.  Logging through [_LOGGER] has no effect on control flow and
    is left out.  Durations are in milliseconds ([asyncio.sleep(1.0)] is
    [1000], [COMMAND_DELAY = 0.3] is [300]). *)

From Stdlib Require Import ZArith List String Ascii Bool Lia.
From stdpp Require Import base tactics option list strings gmap.

Local Open Scope Z_scope.

(** ** Python values used by the code *)

(** The exception classes that occur in the source.  [BleakError] is
    bleak's base class, [TimeoutError] the builtin, [HomeAssistantError]
    Home Assistant's, [ValueError] what [bytes] raises on an element
    outside [range(256)]; [Exception] stands for any other class. *)
Inductive exn : Type :=
| BleakError (msg : string)
| TimeoutError
| HomeAssistantError (msg : string)
| ValueError
| Exception (msg : string).

Inductive Result (A : Type) : Type :=
| Ok (a : A)
| Raise (e : exn).
Arguments Ok {A} a.
Arguments Raise {A} e.

Definition is_BleakError (e : exn) : bool :=
  match e with BleakError _ => true | _ => false end.

Definition is_TimeoutError (e : exn) : bool :=
  match e with TimeoutError => true | _ => false end.

(** [isinstance(e, Exception)]: every class above derives from it. *)
Definition is_Exception (e : exn) : bool := true.

(** A [bytes] object: its elements, each in [0, 256). *)
Definition bytes : Type := list Z.

(** [bytes(iterable_of_ints)]. *)
Definition bytes_of (ints : list Z) : Result bytes :=
  if forallb (fun x => (0 <=? x) && (x <? 256)) ints
  then Ok ints
  else Raise ValueError.

(** [range(n)]. *)
Definition range (n : Z) : list Z :=
  map Z.of_nat (seq 0 (Z.to_nat n)).

(** [needle in hay] on [str]. *)
Fixpoint str_in (needle hay : string) : bool :=
  String.prefix needle hay ||
  match hay with
  | EmptyString => false
  | String _ rest => str_in needle rest
  end.

(** Truthiness of a [str | None] value. *)
Definition str_truthy (s : option string) : bool :=
  match s with
  | Some (String _ _) => true
  | _ => false
  end.

(** ** const.py *)

Module Const.

Definition DOMAIN : string := "levolor_ble".

Definition LEVOLOR_DEVICE_NAME : string := "Levolor".

Definition COMMAND_CHAR_UUID : string :=
  "ab529201-5310-483a-b4d3-7f1eaa8134a0".
Definition INIT_CHAR_UUID : string :=
  "ab529101-5310-483a-b4d3-7f1eaa8134a0".

Definition INIT_PAYLOAD_ints : list Z := [0x88; 0xFA].
Definition INIT_PAYLOAD : bytes := INIT_PAYLOAD_ints.
Definition CMD_PREFIX : Z := 0xF1.

Definition DEFAULT_RETRY_COUNT : Z := 3.
Definition COMMAND_DELAY : Z := 300.

Inductive Action : Type :=
| OPEN | CLOSE | TILT_OPEN | TILT_CLOSE | FAVORITE | STOP.

(** The [IntEnum] value of an action. *)
Definition Action_value (a : Action) : Z :=
  match a with
  | OPEN => 0x01
  | CLOSE => 0x02
  | TILT_OPEN => 0x03
  | TILT_CLOSE => 0x04
  | FAVORITE => 0x05
  | STOP => 0x06
  end.

Definition CONF_ADDRESS : string := "address".
Definition CONF_CHANNEL : string := "channel".
Definition CONF_BLIND_NAME : string := "blind_name".

End Const.

(** The expression [bytes([CMD_PREFIX, action, channel])], written out in
    [coordinator._send_command_once] and in [levolor_ble.send_command]. *)
Definition command_bytes (action : Const.Action) (channel : Z) : Result bytes :=
  bytes_of [Const.CMD_PREFIX; Const.Action_value action; channel].

(** ** The BLE stack *)

(** bleak's [BLEDevice]. *)
Record BLEDevice : Type := mkDevice {
  dev_address : string;
  dev_name : option string
}.

(** Home Assistant's [BluetoothServiceInfoBleak], the fields the code
    reads. *)
Record ServiceInfo : Type := mkInfo {
  si_name : option string;
  si_address : string;
  si_device : BLEDevice
}.

(** The calls the code makes, as a spy would record them.  The
    [response] argument of [write_gatt_char] is [None] where the call
    leaves it out. *)
Inductive event : Type :=
| EvLockAcquire
| EvLockRelease
| EvDeviceFromAddress (addr : string)
| EvDiscoveredServiceInfo
| EvConnect (d : BLEDevice)
| EvWriteGattChar (d : BLEDevice) (uuid : string) (data : bytes)
                  (response : option bool)
| EvDisconnect (d : BLEDevice)
| EvSleep (ms : Z).

(** The primitives, over an arbitrary world [W].  A primitive that can
    raise returns [Some e] when it does. *)
Class Adapter (W : Type) : Type := {
  async_ble_device_from_address : W -> string -> option BLEDevice;
  async_discovered_service_info : W -> list ServiceInfo;
  client_connect : BLEDevice -> W -> option exn * W;
  client_is_connected : BLEDevice -> W -> bool;
  write_gatt_char :
    BLEDevice -> string -> bytes -> option bool -> W -> option exn * W;
  client_disconnect : BLEDevice -> W -> option exn * W;
  asyncio_sleep : Z -> W -> W
}.

(** The host: the world and the log of the calls made so far. *)
Record Host (W : Type) : Type := mkHost {
  world : W;
  log : list event
}.
Arguments mkHost {W} _ _.
Arguments world {W} _.
Arguments log {W} _.

(** ** A state and exception monad *)

Definition M (S A : Type) : Type := S -> Result A * S.

Definition ret {S A} (a : A) : M S A := fun s => (Ok a, s).

Definition raise {S A} (e : exn) : M S A := fun s => (Raise e, s).

Definition bind {S A B} (m : M S A) (k : A -> M S B) : M S B :=
  fun s =>
    match m s with
    | (Ok a, s') => k a s'
    | (Raise e, s') => (Raise e, s')
    end.

(** [try: m] with the outcome handed to the handler. *)
Definition try_ {S A} (m : M S A) : M S (Result A) :=
  fun s => let '(r, s') := m s in (Ok r, s').

Definition get {S} : M S S := fun s => (Ok s, s).

Definition modify {S} (f : S -> S) : M S unit := fun s => (Ok tt, f s).

Definition lift_result {S A} (r : Result A) : M S A := fun s => (r, s).

Declare Scope py_scope.
Delimit Scope py_scope with py.
Notation "x <- c1 ;; c2" := (bind c1 (fun x => c2))
  (at level 100, c1 at next level, right associativity) : py_scope.
Notation "c1 ;; c2" := (bind c1 (fun _ => c2))
  (at level 100, right associativity) : py_scope.

(** Run [m] on a component of the state. *)
Definition zoom {S T A} (proj : S -> T) (inj : T -> S -> S)
    (m : M T A) : M S A :=
  fun s => let '(r, t') := m (proj s) in (r, inj t' s).

(** A state that holds the host. *)
Class HasHost (W S : Type) : Type := {
  get_host : S -> Host W;
  set_host : Host W -> S -> S
}.

#[global] Instance Host_HasHost (W : Type) : HasHost W (Host W) := {
  get_host := fun h => h;
  set_host := fun h _ => h
}.

Section HostOps.
Context {W : Type} {adapter : Adapter W} {S : Type} {HH : HasHost W S}.

Definition record (ev : event) : M S unit :=
  modify (fun s =>
    set_host (mkHost (world (get_host s)) (log (get_host s) ++ [ev])) s).

(** A primitive that may raise: log the call, step the world. *)
Definition call (ev : event) (f : W -> option exn * W) : M S unit :=
  fun s =>
    let '(r, w') := f (world (get_host s)) in
    (match r with Some e => Raise e | None => Ok tt end,
     set_host (mkHost w' (log (get_host s) ++ [ev])) s).

Definition device_from_address (addr : string) : M S (option BLEDevice) :=
  (record (EvDeviceFromAddress addr) ;;
   s <- get ;;
   ret (async_ble_device_from_address (world (get_host s)) addr))%py.

Definition discovered_service_info : M S (list ServiceInfo) :=
  (record EvDiscoveredServiceInfo ;;
   s <- get ;;
   ret (async_discovered_service_info (world (get_host s))))%py.

Definition connect (d : BLEDevice) : M S unit :=
  call (EvConnect d) (client_connect d).

Definition bleak_disconnect (d : BLEDevice) : M S unit :=
  call (EvDisconnect d) (client_disconnect d).

Definition write (d : BLEDevice) (uuid : string) (data : bytes)
    (response : option bool) : M S unit :=
  call (EvWriteGattChar d uuid data response)
       (write_gatt_char d uuid data response).

Definition sleep (ms : Z) : M S unit :=
  call (EvSleep ms) (fun w => (None, asyncio_sleep ms w)).

Definition is_connected (d : BLEDevice) : M S bool :=
  (s <- get ;; ret (client_is_connected d (world (get_host s))))%py.

(** [async with BleakClient(d) as client: body]: [__aenter__] connects;
    once it has, [__aexit__] disconnects on every way out of the body,
    and an exception raised by the disconnect replaces the body's
    outcome. *)
Definition with_BleakClient {A} (d : BLEDevice)
    (body : BLEDevice -> M S A) : M S A :=
  (connect d ;;
   r <- try_ (body d) ;;
   bleak_disconnect d ;;
   lift_result r)%py.

(** [async with lock: body], for a lock that is free: the acquisition
    and the release are logged, the release on every way out. *)
Definition with_lock {A} (body : M S A) : M S A :=
  (record EvLockAcquire ;;
   r <- try_ body ;;
   record EvLockRelease ;;
   lift_result r)%py.

End HostOps.

(** ** coordinator.py *)

Module Coordinator.
Import Const.

Record LevolorBLECoordinator (W : Type) : Type := mkCoordinator {
  hass : Host W;
  address : string
}.
Arguments mkCoordinator {W} _ _.
Arguments hass {W} _.
Arguments address {W} _.

#[global] Instance Coordinator_HasHost (W : Type)
    : HasHost W (LevolorBLECoordinator W) := {
  get_host := hass;
  set_host := fun h self => mkCoordinator h (address self)
}.

Definition set_address {W} (addr : string)
    : M (LevolorBLECoordinator W) unit :=
  modify (fun self => mkCoordinator (hass self) addr).

(** [discovery.name and LEVOLOR_DEVICE_NAME in discovery.name]. *)
Definition name_matches (discovery : ServiceInfo) : bool :=
  match si_name discovery with
  | Some n => str_truthy (Some n) && str_in LEVOLOR_DEVICE_NAME n
  | None => false
  end.

Definition not_found_message (addr : string) : string :=
  "Levolor remote not found at " +:+ addr +:+
  ". Ensure it's powered on and nearby.".

Section Methods.
Context {W : Type} {adapter : Adapter W}.
Local Abbreviation Self := (LevolorBLECoordinator W).

(** The [for discovery in discoveries] loop of [_find_device_by_name]. *)
Fixpoint find_in (discoveries : list ServiceInfo)
    : M Self (option BLEDevice) :=
  match discoveries with
  | [] => ret None
  | discovery :: rest =>
      if name_matches discovery
      then (set_address (si_address discovery) ;;
            ret (Some (si_device discovery)))%py
      else find_in rest
  end.

Definition _find_device_by_name : M Self (option BLEDevice) :=
  (discoveries <- discovered_service_info ;;
   find_in discoveries)%py.

(** The body of the [async with BleakClient(ble_device) as client]
    block of [_send_command_once]. *)
Definition send_on (action : Action) (channel : Z) (client : BLEDevice)
    : M Self bool :=
  (write client INIT_CHAR_UUID INIT_PAYLOAD None ;;
   command <- lift_result (command_bytes action channel) ;;
   r <- try_ (write client COMMAND_CHAR_UUID command (Some true)) ;;
   match r with
   | Ok _ => ret tt
   | Raise e =>
       if is_BleakError e
       then write client COMMAND_CHAR_UUID command (Some false)
       else raise e
   end ;;
   sleep COMMAND_DELAY ;;
   ret true)%py.

Definition _send_command_once (action : Action) (channel : Z)
    : M Self bool :=
  (self <- get ;;
   ble_device <- device_from_address (address self) ;;
   ble_device <- match ble_device with
                 | None => _find_device_by_name
                 | Some _ => ret ble_device
                 end ;;
   match ble_device with
   | None =>
       self <- get ;;
       raise (HomeAssistantError (not_found_message (address self)))
   | Some d => with_BleakClient d (send_on action channel)
   end)%py.

(** The [for attempt in range(retry_count)] loop of
    [async_send_command], on the attempts still to run. *)
Fixpoint retry_loop (action : Action) (channel retry_count : Z)
    (attempts : list Z) : M Self bool :=
  match attempts with
  | [] => ret false
  | attempt :: rest =>
      (r <- try_ (_send_command_once action channel) ;;
       match r with
       | Ok success =>
           if success then ret true
           else retry_loop action channel retry_count rest
       | Raise err =>
           if is_BleakError err || is_TimeoutError err
           then ((if attempt <? retry_count - 1
                  then sleep 1000 else ret tt) ;;
                 retry_loop action channel retry_count rest)
           else raise err
       end)%py
  end.

Definition async_send_command (action : Action) (channel : Z)
    (retry_count : Z) : M Self bool :=
  with_lock (retry_loop action channel retry_count (range retry_count)).

Definition async_test_connection : M Self bool :=
  (self <- get ;;
   ble_device <- device_from_address (address self) ;;
   ble_device <- match ble_device with
                 | None => _find_device_by_name
                 | Some _ => ret ble_device
                 end ;;
   match ble_device with
   | None => ret false
   | Some d =>
       r <- try_ (with_BleakClient d (fun client =>
              write client INIT_CHAR_UUID INIT_PAYLOAD None ;;
              ret true)) ;;
       match r with
       | Ok b => ret b
       | Raise err => if is_BleakError err then ret false else raise err
       end
   end)%py.

End Methods.
End Coordinator.

(** ** cover.py *)

Module Cover.
Import Const.
Import Coordinator.

(** Home Assistant's [ATTR_POSITION]. *)
Definition ATTR_POSITION : string := "position".

(** The entity attributes the methods assign. *)
Record Attrs : Type := mkAttrs {
  _attr_current_cover_position : option Z;
  _attr_is_closed : option bool;
  _attr_is_opening : bool;
  _attr_is_closing : bool;
  _attr_available : bool
}.

(** The entity: its coordinator, its channel, its attributes, and the
    states handed to Home Assistant by [async_write_ha_state] so far. *)
Record LevolorBlindCover (W : Type) : Type := mkCover {
  _coordinator : LevolorBLECoordinator W;
  _channel : Z;
  attrs : Attrs;
  written_states : list Attrs
}.
Arguments mkCover {W} _ _ _ _.
Arguments _coordinator {W} _.
Arguments _channel {W} _.
Arguments attrs {W} _.
Arguments written_states {W} _.

#[global] Instance Cover_HasHost (W : Type)
    : HasHost W (LevolorBlindCover W) := {
  get_host := fun self => hass (_coordinator self);
  set_host := fun h self =>
    mkCover (mkCoordinator h (Coordinator.address (_coordinator self)))
            (_channel self) (attrs self) (written_states self)
}.

(** The attributes [__init__] assigns. *)
Definition init_attrs : Attrs := mkAttrs None None false false true.

Definition set_is_opening (b : bool) (a : Attrs) : Attrs :=
  mkAttrs (_attr_current_cover_position a) (_attr_is_closed a) b
          (_attr_is_closing a) (_attr_available a).
Definition set_is_closing (b : bool) (a : Attrs) : Attrs :=
  mkAttrs (_attr_current_cover_position a) (_attr_is_closed a)
          (_attr_is_opening a) b (_attr_available a).
Definition set_available (b : bool) (a : Attrs) : Attrs :=
  mkAttrs (_attr_current_cover_position a) (_attr_is_closed a)
          (_attr_is_opening a) (_attr_is_closing a) b.
Definition set_current_cover_position (p : option Z) (a : Attrs) : Attrs :=
  mkAttrs p (_attr_is_closed a) (_attr_is_opening a) (_attr_is_closing a)
          (_attr_available a).
Definition set_is_closed (c : option bool) (a : Attrs) : Attrs :=
  mkAttrs (_attr_current_cover_position a) c (_attr_is_opening a)
          (_attr_is_closing a) (_attr_available a).

Section Methods.
Context {W : Type} {adapter : Adapter W}.
Local Abbreviation Self := (LevolorBlindCover W).

Definition assign (f : Attrs -> Attrs) : M Self unit :=
  modify (fun self =>
    mkCover (_coordinator self) (_channel self) (f (attrs self))
            (written_states self)).

Definition async_write_ha_state : M Self unit :=
  modify (fun self =>
    mkCover (_coordinator self) (_channel self) (attrs self)
            (written_states self ++ [attrs self])).

(** [await self._coordinator.async_send_command(action, self._channel)]. *)
Definition coordinator_send (action : Action) : M Self bool :=
  (self <- get ;;
   zoom _coordinator
        (fun c self => mkCover c (_channel self) (attrs self)
                               (written_states self))
        (async_send_command action (_channel self) DEFAULT_RETRY_COUNT))%py.

Definition async_open_cover : M Self unit :=
  (assign (set_is_opening true) ;;
   assign (set_is_closing false) ;;
   async_write_ha_state ;;
   success <- coordinator_send OPEN ;;
   assign (set_is_opening false) ;;
   (if success : bool
    then (assign (set_current_cover_position (Some 100)) ;;
          assign (set_is_closed (Some false)) ;;
          assign (set_available true))
    else assign (set_available false)) ;;
   async_write_ha_state)%py.

Definition async_close_cover : M Self unit :=
  (assign (set_is_closing true) ;;
   assign (set_is_opening false) ;;
   async_write_ha_state ;;
   success <- coordinator_send CLOSE ;;
   assign (set_is_closing false) ;;
   (if success : bool
    then (assign (set_current_cover_position (Some 0)) ;;
          assign (set_is_closed (Some true)) ;;
          assign (set_available true))
    else assign (set_available false)) ;;
   async_write_ha_state)%py.

Definition async_stop_cover : M Self unit :=
  (assign (set_is_opening false) ;;
   assign (set_is_closing false) ;;
   success <- coordinator_send STOP ;;
   (if success : bool
    then assign (set_available true)
    else assign (set_available false)) ;;
   async_write_ha_state)%py.

(** [kwargs] carries integer positions; [kwargs.get(ATTR_POSITION, 50)]
    is the lookup with default. *)
Definition async_set_cover_position (kwargs : gmap string Z) : M Self unit :=
  let position := default 50 (kwargs !! ATTR_POSITION) in
  if 50 <=? position
  then async_open_cover
  else async_close_cover.

End Methods.

Section Restore.
Context {W : Type}.
Local Abbreviation Self := (LevolorBlindCover W).

(** [async_added_to_hass], given what [async_get_last_state] answers:
    [None], or the attributes of the last state.  The call to the base
    class precedes it and assigns none of the attributes below. *)
Definition async_added_to_hass (last_state : option (gmap string Z))
    : M Self unit :=
  match last_state with
  | Some attributes =>
      match attributes !! ATTR_POSITION with
      | Some position =>
          (assign (set_current_cover_position (Some position)) ;;
           assign (set_is_closed (Some (position =? 0))))%py
      | None => ret tt
      end
  | None => ret tt
  end.

End Restore.
End Cover.

(** ** levolor_ble.py, the standalone client

    Its constants and its [Action] enumeration repeat those of const.py
    value for value; the ones above are used. *)

Module Cli.
Import Const.

Record LevolorRemote (W : Type) : Type := mkRemote {
  host : Host W;
  address : option string;
  client : option BLEDevice
}.
Arguments mkRemote {W} _ _ _.
Arguments host {W} _.
Arguments address {W} _.
Arguments client {W} _.

#[global] Instance Remote_HasHost (W : Type) : HasHost W (LevolorRemote W) := {
  get_host := host;
  set_host := fun h self => mkRemote h (address self) (client self)
}.

Section Methods.
Context {W : Type} {adapter : Adapter W}.
Local Abbreviation Self := (LevolorRemote W).

(** [self.client and self.client.is_connected]. *)
Definition client_connected : M Self bool :=
  (self <- get ;;
   match client self with
   | None => ret false
   | Some c => is_connected c
   end)%py.

Definition disconnect : M Self unit :=
  (self <- get ;;
   connected <- client_connected ;;
   match client self with
   | Some c => if connected : bool then bleak_disconnect c else ret tt
   | None => ret tt
   end)%py.

Definition send_command (action : Action) (channel : Z) : M Self bool :=
  (self <- get ;;
   connected <- client_connected ;;
   match client self with
   | Some c =>
       if negb connected then ret false
       else if (channel <? 1) || (channel >? 6) then ret false
       else
         command <- lift_result (command_bytes action channel) ;;
         r <- try_ (
                r1 <- try_ (write c COMMAND_CHAR_UUID command (Some true)) ;;
                match r1 with
                | Ok _ => ret tt
                | Raise e =>
                    if is_Exception e
                    then write c COMMAND_CHAR_UUID command (Some false)
                    else raise e
                end ;;
                sleep 500 ;;
                ret true) ;;
         match r with
         | Ok b => ret b
         | Raise e => if is_BleakError e then ret false else raise e
         end
   | None => ret false
   end)%py.

Definition open (channel : Z) : M Self bool := send_command OPEN channel.
Definition close (channel : Z) : M Self bool := send_command CLOSE channel.
Definition stop (channel : Z) : M Self bool := send_command STOP channel.
Definition tilt_open (channel : Z) : M Self bool :=
  send_command TILT_OPEN channel.
Definition tilt_close (channel : Z) : M Self bool :=
  send_command TILT_CLOSE channel.
Definition favorite (channel : Z) : M Self bool :=
  send_command FAVORITE channel.

End Methods.

(** bleak's [BleakScanner]: entering and leaving the scanning context,
    the devices seen so far, and [find_device_by_filter] with its filter
    and its timeout.  Scanner calls are not entered in the call log. *)
Class Scanner (W : Type) : Type := {
  scanner_start : W -> option exn * W;
  scanner_stop : W -> option exn * W;
  scanner_discovered_devices : W -> list BLEDevice;
  scanner_find_device_by_filter :
    (BLEDevice -> bool) -> Z -> W -> Result (option BLEDevice) * W
}.

(** [device.name and LEVOLOR_DEVICE_NAME in device.name]. *)
Definition device_matches (d : BLEDevice) : bool :=
  match dev_name d with
  | Some n => str_truthy (Some n) && str_in LEVOLOR_DEVICE_NAME n
  | None => false
  end.

(** The values [argparse] lets through as [args.command]. *)
Inductive Command : Type :=
| cmd_scan | cmd_open | cmd_close | cmd_stop
| cmd_tilt_open | cmd_tilt_close | cmd_favorite.

Record Args : Type := mkArgs {
  args_command : Command;
  args_channel : Z;
  args_address : option string
}.

Section Session.
Context {W : Type} {adapter : Adapter W} {scanner : Scanner W}.
Local Abbreviation Self := (LevolorRemote W).

(** A scanner primitive that may raise. *)
Definition scanner_call (f : W -> option exn * W) : M Self unit :=
  fun self =>
    let '(r, w') := f (world (host self)) in
    (match r with Some e => Raise e | None => Ok tt end,
     mkRemote (mkHost w' (log (host self))) (address self) (client self)).

(** [scan], a static method: it reads and assigns no field. *)
Definition scan (timeout : Z) : M Self (list BLEDevice) :=
  (scanner_call scanner_start ;;
   r <- try_ (sleep timeout ;;
              self <- get ;;
              ret (scanner_discovered_devices (world (host self)))) ;;
   scanner_call scanner_stop ;;
   discovered <- lift_result r ;;
   ret (List.filter device_matches discovered))%py.

(** [find_device], a static method. *)
Definition find_device (timeout : Z) : M Self (option BLEDevice) :=
  fun self =>
    let '(r, w') :=
      scanner_find_device_by_filter device_matches timeout
                                    (world (host self)) in
    (r, mkRemote (mkHost w' (log (host self))) (address self) (client self)).

Definition set_address (addr : option string) : M Self unit :=
  modify (fun self => mkRemote (host self) addr (client self)).

Definition set_client (c : option BLEDevice) : M Self unit :=
  modify (fun self => mkRemote (host self) (address self) c).

(** [BleakClient(address)]: the client of the device at that address. *)
Definition BleakClient (addr : string) : BLEDevice := mkDevice addr None.

(** [await self.client.connect()]. *)
Definition client_connect_call (c : BLEDevice) : M Self unit := connect c.

(** [connect]; the timeout is the one of the search. *)
Definition connect (timeout : Z) : M Self bool :=
  (self <- get ;;
   found <- match address self with
            | None =>
                device <- find_device timeout ;;
                match device with
                | None => ret false
                | Some d => set_address (Some (dev_address d)) ;; ret true
                end
            | Some _ => ret true
            end ;;
   if negb found then ret false
   else
     self <- get ;;
     match address self with
     | None => ret false
     | Some addr =>
         r <- try_ (
                set_client (Some (BleakClient addr)) ;;
                client_connect_call (BleakClient addr) ;;
                connected <- is_connected (BleakClient addr) ;;
                if negb connected then ret false
                else
                  r1 <- try_ (write (BleakClient addr) INIT_CHAR_UUID
                                    INIT_PAYLOAD None) ;;
                  match r1 with
                  | Ok _ => ret tt
                  | Raise e => if is_Exception e then ret tt else raise e
                  end ;;
                  ret true) ;;
         match r with
         | Ok b => ret b
         | Raise e => if is_BleakError e then ret false else raise e
         end
     end)%py.

Definition __aenter__ : M Self unit :=
  (connected <- connect 10000 ;;
   if negb connected
   then raise (BleakError "Failed to connect to Levolor remote")
   else ret tt)%py.

Definition __aexit__ : M Self unit := disconnect.

(** The [if]/[elif] chain of [main] on [args.command]. *)
Definition dispatch (c : Command) (channel : Z) : M Self unit :=
  match c with
  | cmd_scan => ret tt
  | cmd_open => (open channel ;; ret tt)%py
  | cmd_close => (close channel ;; ret tt)%py
  | cmd_stop => (stop channel ;; ret tt)%py
  | cmd_tilt_open => (tilt_open channel ;; ret tt)%py
  | cmd_tilt_close => (tilt_close channel ;; ret tt)%py
  | cmd_favorite => (favorite channel ;; ret tt)%py
  end.

(** [main] after [parse_args], on the remote it has built. *)
Definition main_on (args : Args) : M Self unit :=
  match args_command args with
  | cmd_scan => (scan 10000 ;; ret tt)%py
  | c =>
      (connected <- connect 10000 ;;
       if negb connected then ret tt
       else
         r <- try_ (dispatch c (args_channel args)) ;;
         disconnect ;;
         lift_result r)%py
  end.

(** [main]: [remote = LevolorRemote(address=args.address)] and the
    rest. *)
Definition main (args : Args) (h : Host W) : Result unit * LevolorRemote W :=
  main_on args (mkRemote h (args_address args) None).

End Session.
End Cli.

(** ** Scripted adapters

    Adapters for the examples.  The world counts the connection attempts
    made so far; what a connection attempt does may depend on that count,
    every other primitive answers from the script alone. *)

Module Script.
Import Const.

Record Script : Type := mkScript {
  at_address : string -> option BLEDevice;
  discoveries : list ServiceInfo;
  on_connect : nat -> option exn;
  on_init_write : option exn;
  on_ack_write : option exn;
  on_noack_write : option exn;
  on_disconnect : option exn
}.

Definition scripted (sc : Script) : Adapter nat := {|
  async_ble_device_from_address := fun _ addr => at_address sc addr;
  async_discovered_service_info := fun _ => discoveries sc;
  client_connect := fun _ n => (on_connect sc n, Datatypes.S n);
  client_is_connected := fun _ _ => true;
  write_gatt_char := fun _ uuid _ response n =>
    (if String.eqb uuid INIT_CHAR_UUID then on_init_write sc
     else match response with
          | Some true => on_ack_write sc
          | _ => on_noack_write sc
          end, n);
  client_disconnect := fun _ n => (on_disconnect sc, n);
  asyncio_sleep := fun _ n => n
|}.

(** [d] is found at its own address and at no other. *)
Definition only (d : BLEDevice) (addr : string) : option BLEDevice :=
  if String.eqb (dev_address d) addr then Some d else None.

Definition nowhere (addr : string) : option BLEDevice := None.

(** Every lookup answers [d]. *)
Definition anywhere (d : BLEDevice) (addr : string) : option BLEDevice :=
  Some d.

Definition remote : BLEDevice :=
  mkDevice "AA:BB:CC:DD:EE:FF" (Some "Levolor Remote"%string).

Definition moved : BLEDevice :=
  mkDevice "11:22:33:44:55:66" (Some "Levolor Remote"%string).

(** Every primitive succeeds; the remote is at its configured address. *)
Definition healthy : Script :=
  mkScript (only remote) [] (fun _ => None) None None None None.

(** No device at any address, nothing discovered. *)
Definition absent : Script :=
  mkScript nowhere [] (fun _ => None) None None None None.

(** The remote resolves, every connection attempt raises [BleakError]. *)
Definition unconnectable : Script :=
  mkScript (anywhere remote) []
           (fun _ => Some (BleakError "connect failed")) None None None None.

(** The first connection attempt raises [TimeoutError], later ones
    succeed. *)
Definition flaky : Script :=
  mkScript (only remote) []
           (fun n => match n with O => Some TimeoutError | _ => None end)
           None None None None.

(** The acknowledged command write raises [BleakError], the
    unacknowledged one succeeds. *)
Definition no_ack : Script :=
  mkScript (only remote) [] (fun _ => None) None
           (Some (BleakError "write with response not supported")) None None.

(** Neither command write succeeds. *)
Definition no_write : Script :=
  mkScript (only remote) [] (fun _ => None) None
           (Some (BleakError "write with response not supported"))
           (Some (BleakError "write failed")) None.

(** The remote has left its configured address and advertises under a
    new one. *)
Definition rotated : Script :=
  mkScript (only moved)
           [mkInfo (Some "Kitchen lamp"%string) "77:88:99:AA:BB:CC"
                   (mkDevice "77:88:99:AA:BB:CC" (Some "Kitchen lamp"%string));
            mkInfo (Some "Levolor Remote"%string) "11:22:33:44:55:66" moved]
           (fun _ => None) None None None None.

Definition fresh_host : Host nat := mkHost O [].

Definition coordinator0 : Coordinator.LevolorBLECoordinator nat :=
  Coordinator.mkCoordinator fresh_host "AA:BB:CC:DD:EE:FF".

Definition cover0 (channel : Z) : Cover.LevolorBlindCover nat :=
  Cover.mkCover coordinator0 channel Cover.init_attrs [].

Definition cli0 : Cli.LevolorRemote nat :=
  Cli.mkRemote fresh_host (Some "AA:BB:CC:DD:EE:FF"%string) (Some remote).

End Script.

(** ** Vocabulary of the statements *)

(** The calls a computation adds to the log when run from [s]. *)
Definition trace_of {W S A : Type} {HH : HasHost W S} (m : M S A) (s : S)
    : list event :=
  drop (length (log (get_host s))) (log (get_host (snd (m s)))).

(** The steps of one delivery, in the order of the source text. *)
Inductive step : Type :=
| Resolve | Connect | Arm | CommandWrite | Settle | Disconnect.

Definition rank (st : step) : nat :=
  match st with
  | Resolve => 0
  | Connect => 1
  | Arm => 2
  | CommandWrite => 3
  | Settle => 4
  | Disconnect => 5
  end%nat.

(** The step a call belongs to; [None] for a call that is no step of a
    delivery (the lock, a sleep of another length, a write to another
    characteristic). *)
Definition step_of (ev : event) : option step :=
  match ev with
  | EvDeviceFromAddress _ | EvDiscoveredServiceInfo => Some Resolve
  | EvConnect _ => Some Connect
  | EvWriteGattChar _ uuid data _ =>
      if String.eqb uuid Const.INIT_CHAR_UUID
      then Some Arm
      else if String.eqb uuid Const.COMMAND_CHAR_UUID then Some CommandWrite
      else None
  | EvSleep ms => if ms =? Const.COMMAND_DELAY then Some Settle else None
  | EvDisconnect _ => Some Disconnect
  | EvLockAcquire | EvLockRelease => None
  end.

(** Every call is a step and the steps never go back. *)
Fixpoint in_order_from (least : nat) (tr : list event) : bool :=
  match tr with
  | [] => true
  | ev :: rest =>
      match step_of ev with
      | Some st => (least <=? rank st)%nat && in_order_from (rank st) rest
      | None => false
      end
  end.

Definition in_order (tr : list event) : bool := in_order_from 0 tr.

(** The calls of a delivery that runs to its end: [discovered] when the
    address lookup found nothing and the device came from discovery,
    [fallback] when the command was written a second time, without
    response. *)
Definition delivery_trace (addr : string) (discovered : bool) (d : BLEDevice)
    (command : bytes) (fallback : bool) : list event :=
  [EvDeviceFromAddress addr] ++
  (if discovered then [EvDiscoveredServiceInfo] else []) ++
  [EvConnect d;
   EvWriteGattChar d Const.INIT_CHAR_UUID [0x88; 0xFA] None;
   EvWriteGattChar d Const.COMMAND_CHAR_UUID command (Some true)] ++
  (if fallback
   then [EvWriteGattChar d Const.COMMAND_CHAR_UUID command (Some false)]
   else []) ++
  [EvSleep 300; EvDisconnect d].

(** The traces of successive attempts, a one second sleep between each
    two. *)
Fixpoint join_cooldown (attempts : list (list event)) : list event :=
  match attempts with
  | [] => []
  | [tr] => tr
  | tr :: rest => tr ++ EvSleep 1000 :: join_cooldown rest
  end.

(** The exceptions the retry loop handles:
    [except (BleakError, TimeoutError)]. *)
Definition handled (e : exn) : bool := is_BleakError e || is_TimeoutError e.

(** The number of address lookups in a trace; every attempt makes one. *)
Definition is_lookup (ev : event) : bool :=
  match ev with EvDeviceFromAddress _ => true | _ => false end.

Definition lookups (tr : list event) : nat :=
  length (List.filter is_lookup tr).

(** The number of one second sleeps in a trace. *)
Definition is_cooldown (ev : event) : bool :=
  match ev with EvSleep ms => ms =? 1000 | _ => false end.

Definition cooldowns (tr : list event) : nat :=
  length (List.filter is_cooldown tr).

(** The calls that reach the BLE stack. *)
Definition is_adapter_call (ev : event) : bool :=
  match ev with
  | EvLockAcquire | EvLockRelease | EvSleep _ => false
  | _ => true
  end.

Definition adapter_calls (tr : list event) : list event :=
  List.filter is_adapter_call tr.

(** The frames written to the command characteristic, with the
    [response] argument of each write. *)
Fixpoint command_writes (tr : list event) : list (bytes * option bool) :=
  match tr with
  | [] => []
  | EvWriteGattChar _ uuid data response :: rest =>
      if String.eqb uuid Const.COMMAND_CHAR_UUID
      then (data, response) :: command_writes rest
      else command_writes rest
  | _ :: rest => command_writes rest
  end.

(** The command writes one attempt can make for a frame: none, the
    write with response, or that write and then the write without. *)
Definition fallback_writes (command : bytes)
    (writes : list (bytes * option bool)) : Prop :=
  writes = [] \/
  writes = [(command, Some true)] \/
  writes = [(command, Some true); (command, Some false)].

Section Runs.
Context {W : Type} {adapter : Adapter W}.
Import Const Coordinator.

(** [tr] is the whole trace of one run of [_send_command_once], from some
    state, and [r] is what that run returned or raised. *)
Definition is_attempt (action : Action) (channel : Z)
    (run : Result bool * list event) : Prop :=
  exists s : LevolorBLECoordinator W,
    fst (_send_command_once action channel s) = fst run /\
    trace_of (_send_command_once action channel) s = snd run.

(** An attempt that raised an exception the retry loop handles. *)
Definition caught_failure (action : Action) (channel : Z)
    (run : Result bool * list event) : Prop :=
  is_attempt action channel run /\
  exists e, fst run = Raise e /\ handled e = true.

(** The attempts of one [async_send_command] with at most [limit]
    iterations, and its outcome: all iterations used up on handled
    failures; or handled failures and then a success; or handled failures
    and then an exception the loop does not handle. *)
Inductive retry_runs (action : Action) (channel : Z) (limit : nat)
    : list (Result bool * list event) -> Result bool -> Prop :=
| runs_exhausted fails :
    Forall (caught_failure action channel) fails ->
    length fails = limit ->
    retry_runs action channel limit fails (Ok false)
| runs_success fails tr :
    Forall (caught_failure action channel) fails ->
    (length fails < limit)%nat ->
    is_attempt action channel (Ok true, tr) ->
    retry_runs action channel limit (fails ++ [(Ok true, tr)]) (Ok true)
| runs_raised fails e tr :
    Forall (caught_failure action channel) fails ->
    (length fails < limit)%nat ->
    is_attempt action channel (Raise e, tr) ->
    handled e = false ->
    retry_runs action channel limit (fails ++ [(Raise e, tr)]) (Raise e).

(** Neither the address lookup nor discovery resolves a device. *)
Definition unresolved (s : LevolorBLECoordinator W) : Prop :=
  async_ble_device_from_address (world (hass s)) (address s) = None /\
  List.find name_matches (async_discovered_service_info (world (hass s)))
    = None.

End Runs.

(** ** Vocabulary of the further statements *)

Definition is_lock (ev : event) : bool :=
  match ev with EvLockAcquire | EvLockRelease => true | _ => false end.

Definition is_discovery (ev : event) : bool :=
  match ev with EvDiscoveredServiceInfo => true | _ => false end.

Definition is_connect (ev : event) : bool :=
  match ev with EvConnect _ => true | _ => false end.

Definition is_disconnect (ev : event) : bool :=
  match ev with EvDisconnect _ => true | _ => false end.

Definition is_sleep (ev : event) : bool :=
  match ev with EvSleep _ => true | _ => false end.

(** The characteristic writes of a trace: characteristic, payload and
    [response] argument of each. *)
Fixpoint gatt_writes (tr : list event)
    : list (string * bytes * option bool) :=
  match tr with
  | [] => []
  | EvWriteGattChar _ uuid data response :: rest =>
      (uuid, data, response) :: gatt_writes rest
  | _ :: rest => gatt_writes rest
  end.

(** The two writes of the protocol: the init payload to the init
    characteristic, [response] left out, and the frame of [action] and
    [channel] to the command characteristic, [response] given. *)
Definition protocol_write (action : Const.Action) (channel : Z)
    (w : string * bytes * option bool) : Prop :=
  w = (Const.INIT_CHAR_UUID, [0x88; 0xFA], None) \/
  exists response : bool,
    w = (Const.COMMAND_CHAR_UUID,
         [0xF1; Const.Action_value action; channel], Some response).

(** [is_closed] says what [current_cover_position] says: both unknown,
    or closed exactly at position 0. *)
Definition position_consistent (a : Cover.Attrs) : Prop :=
  match Cover._attr_current_cover_position a, Cover._attr_is_closed a with
  | None, None => True
  | Some p, Some c => c = (p =? 0)
  | _, _ => False
  end.

(** More scripted adapters. *)

Module Script2.
Import Const Script.

(** The write with response times out. *)
Definition ack_timeout : Script :=
  mkScript (only remote) [] (fun _ => None) None (Some TimeoutError) None
           None.

(** The init write is rejected. *)
Definition no_arm : Script :=
  mkScript (only remote) [] (fun _ => None)
           (Some (BleakError "init write failed")) None None None.

(** What the scanner of the examples answers: the device
    [find_device_by_filter] returns, and the devices seen. *)
Definition scripted_scanner (found : option BLEDevice)
    (seen : list BLEDevice) : Cli.Scanner nat := {|
  Cli.scanner_start := fun n => (None, n);
  Cli.scanner_stop := fun n => (None, n);
  Cli.scanner_discovered_devices := fun _ => seen;
  Cli.scanner_find_device_by_filter := fun _ _ n => (Ok found, n)
|}.

Definition lamp : BLEDevice :=
  mkDevice "77:88:99:AA:BB:CC" (Some "Kitchen lamp"%string).

Definition unnamed : BLEDevice := mkDevice "00:00:00:00:00:01" None.

End Script2.

Section Resolution.
Context {W : Type} {adapter : Adapter W}.
Import Coordinator.

(** The device an attempt started in [s] works on: the one at the
    stored address, or else the device of the first discovered service
    info whose name matches. *)
Definition resolves (s : LevolorBLECoordinator W) (d : BLEDevice) : Prop :=
  async_ble_device_from_address (world (hass s)) (address s) = Some d \/
  (async_ble_device_from_address (world (hass s)) (address s) = None /\
   exists discovery,
     List.find name_matches (async_discovered_service_info (world (hass s)))
       = Some discovery /\
     d = si_device discovery).

(** Where a stored address can come from: it is [original], or the
    address of a discovered service info whose name matches. *)
Definition address_from (original addr : string) : Prop :=
  addr = original \/
  exists (w : W) discovery,
    In discovery (async_discovered_service_info w) /\
    name_matches discovery = true /\
    addr = si_address discovery.

End Resolution.

(** ** config_flow.py

    The flow's steps, with what Home Assistant supplies taken as given:
    the [user_input] a step receives has passed the schema of the form
    it answers, so it is a record of typed fields; [async_set_unique_id]
    followed by [_abort_if_unique_id_configured] is one question to the
    host, whose answer is the reason of the abort it raises, if any; and
    a step that is aborted this way ends with that abort. *)

Module ConfigFlow.
Import Const.

(** The answers to the forms "bluetooth_confirm" and "configure". *)
Record BlindInput : Type := mkBlindInput {
  input_blind_name : string;
  input_channel : Z
}.

(** The [data] of a config entry. *)
Record EntryData : Type := mkEntryData {
  data_address : string;
  data_channel : Z;
  data_blind_name : string
}.

Inductive Schema : Type :=
| AddressIn (options : gmap string string)
| BlindSchema (default_name : string) (default_channel : Z)
              (channels : gmap Z string).

Inductive FlowResult : Type :=
| Form (step_id : string) (data_schema : Schema)
       (description_placeholders : list (string * string))
| CreateEntry (title : string) (data : EntryData)
| Abort (reason : string).

(** The host's side of the unique id: [Some reason] when setting the
    unique id and checking it against the configured entries aborts the
    flow. *)
Class FlowHost : Type := {
  unique_id_aborts : string -> option string
}.

Record LevolorBLEConfigFlow (W : Type) : Type := mkFlow {
  hass : Host W;
  _discovery_info : option ServiceInfo;
  _discovered_devices : gmap string ServiceInfo;
  unique_id : option string;
  title_placeholders : option string
}.
Arguments mkFlow {W} _ _ _ _ _.
Arguments hass {W} _.
Arguments _discovery_info {W} _.
Arguments _discovered_devices {W} _.
Arguments unique_id {W} _.
Arguments title_placeholders {W} _.

#[global] Instance Flow_HasHost (W : Type)
    : HasHost W (LevolorBLEConfigFlow W) := {
  get_host := hass;
  set_host := fun h self =>
    mkFlow h (_discovery_info self) (_discovered_devices self)
           (unique_id self) (title_placeholders self)
}.

(** [__init__]. *)
Definition new_flow {W : Type} (h : Host W) : LevolorBLEConfigFlow W :=
  mkFlow h None ∅ None None.

(** The channel choices of both blind forms. *)
Definition channel_choices : gmap Z string :=
  {[ 1 := "Channel 1"%string; 2 := "Channel 2"%string;
     3 := "Channel 3"%string; 4 := "Channel 4"%string;
     5 := "Channel 5"%string; 6 := "Channel 6"%string ]}.

Definition blind_schema : Schema :=
  BlindSchema "Levolor Blind" 1 channel_choices.

(** [name or "Levolor"]. *)
Definition name_or_default (n : option string) : string :=
  match n with
  | Some (String c rest) => String c rest
  | _ => "Levolor"%string
  end.

(** [f"{info.name} ({addr})"]. *)
Definition option_label (info : ServiceInfo) (addr : string) : string :=
  match si_name info with Some n => n | None => "None"%string end
  +:+ " (" +:+ addr +:+ ")".

(** The loop of [async_step_user] that fills [_discovered_devices]; the
    test on the name is the one of the coordinator. *)
Definition collect (discoveries : list ServiceInfo)
    (table : gmap string ServiceInfo) : gmap string ServiceInfo :=
  fold_left
    (fun t discovery =>
       if Coordinator.name_matches discovery
       then <[ si_address discovery := discovery ]> t
       else t)
    discoveries table.

Section Steps.
Context {W : Type} {adapter : Adapter W} {flow_host : FlowHost}.
Local Abbreviation Self := (LevolorBLEConfigFlow W).

Definition set_unique_id (addr : string) : M Self unit :=
  modify (fun self =>
    mkFlow (hass self) (_discovery_info self) (_discovered_devices self)
           (Some addr) (title_placeholders self)).

Definition set_discovery_info (info : option ServiceInfo) : M Self unit :=
  modify (fun self =>
    mkFlow (hass self) info (_discovered_devices self) (unique_id self)
           (title_placeholders self)).

Definition set_discovered_devices (t : gmap string ServiceInfo)
    : M Self unit :=
  modify (fun self =>
    mkFlow (hass self) (_discovery_info self) t (unique_id self)
           (title_placeholders self)).

Definition set_title_placeholders (n : string) : M Self unit :=
  modify (fun self =>
    mkFlow (hass self) (_discovery_info self) (_discovered_devices self)
           (unique_id self) (Some n)).

Definition AssertionError : exn := Exception "AssertionError".

Definition async_create_entry (info : ServiceInfo) (user_input : BlindInput)
    : FlowResult :=
  CreateEntry (input_blind_name user_input)
    (mkEntryData (si_address info) (input_channel user_input)
                 (input_blind_name user_input)).

Definition async_step_bluetooth_confirm (user_input : option BlindInput)
    : M Self FlowResult :=
  (self <- get ;;
   match _discovery_info self with
   | None => raise AssertionError
   | Some info =>
       match user_input with
       | Some input => ret (async_create_entry info input)
       | None =>
           ret (Form "bluetooth_confirm" blind_schema
                  [("name"%string, name_or_default (si_name info));
                   ("address"%string, si_address info)])
       end
   end)%py.

Definition async_step_bluetooth (discovery_info : ServiceInfo)
    : M Self FlowResult :=
  (set_unique_id (si_address discovery_info) ;;
   match unique_id_aborts (si_address discovery_info) with
   | Some reason => ret (Abort reason)
   | None =>
       set_discovery_info (Some discovery_info) ;;
       set_title_placeholders (name_or_default (si_name discovery_info)) ;;
       async_step_bluetooth_confirm None
   end)%py.

Definition async_step_configure (user_input : option BlindInput)
    : M Self FlowResult :=
  (self <- get ;;
   match user_input with
   | Some input =>
       match _discovery_info self with
       | None => raise AssertionError
       | Some info => ret (async_create_entry info input)
       end
   | None => ret (Form "configure" blind_schema [])
   end)%py.

(** [user_input] is the address chosen on the form, when there is
    one. *)
Definition async_step_user (user_input : option string)
    : M Self FlowResult :=
  match user_input with
  | Some addr =>
      (set_unique_id addr ;;
       match unique_id_aborts addr with
       | Some reason => ret (Abort reason)
       | None =>
           self <- get ;;
           set_discovery_info (_discovered_devices self !! addr) ;;
           async_step_configure None
       end)%py
  | None =>
      (set_discovered_devices ∅ ;;
       discoveries <- discovered_service_info ;;
       set_discovered_devices (collect discoveries ∅) ;;
       self <- get ;;
       if decide (_discovered_devices self = ∅)
       then ret (Abort "no_devices_found")
       else ret (Form "user"
                   (AddressIn (map_imap (fun addr info =>
                                           Some (option_label info addr))
                                        (_discovered_devices self)))
                   []))%py
  end.

End Steps.
End ConfigFlow.

(** Hosts and flows for the examples. *)

Module Script3.
Import ConfigFlow.

(** No unique id is configured. *)
Definition nothing_configured : FlowHost :=
  {| unique_id_aborts := fun _ => None |}.

(** The remote at [addr] has an entry already. *)
Definition configured (addr : string) : FlowHost :=
  {| unique_id_aborts := fun a =>
       if String.eqb a addr then Some "already_configured"%string
       else None |}.

Definition flow0 : LevolorBLEConfigFlow nat := new_flow Script.fresh_host.

Definition moved_info : ServiceInfo :=
  mkInfo (Some "Levolor Remote"%string) "11:22:33:44:55:66" Script.moved.

End Script3.

(** * Properties *)

(** ** Python values *)

Lemma bytes_of_ok (ints : list Z) :
  Forall (fun x => 0 <= x < 256) ints -> bytes_of ints = Ok ints.
Proof.
  intros H. unfold bytes_of.
  replace (forallb _ ints) with true; [reflexivity|].
  symmetry. apply forallb_forall. intros x Hx.
  rewrite Forall_forall in H.
  apply list_elem_of_In, H in Hx. lia.
Qed.

Lemma INIT_PAYLOAD_bytes :
  bytes_of Const.INIT_PAYLOAD_ints = Ok Const.INIT_PAYLOAD.
Proof. reflexivity. Qed.

Lemma Action_value_range (a : Const.Action) :
  1 <= Const.Action_value a <= 6.
Proof. destruct a; cbn; lia. Qed.

Lemma range_nonpositive (n : Z) : n <= 0 -> range n = [].
Proof.
  intros H. unfold range. replace (Z.to_nat n) with 0%nat by lia.
  reflexivity.
Qed.

Lemma prefix_append (a b : string) : String.prefix a (a +:+ b) = true.
Proof.
  induction a as [|x a IHa]; simpl; [by destruct b|].
  by destruct (Ascii.ascii_dec x x).
Qed.

Lemma prefix_split (a b : string) :
  String.prefix a b = true -> exists post, b = a +:+ post.
Proof.
  revert b. induction a as [|x a IHa]; intros b Hb.
  - by exists b.
  - destruct b as [|y b]; simpl in Hb; [done|].
    destruct (Ascii.ascii_dec x y) as [->|]; [|done].
    destruct (IHa _ Hb) as [post ->]. by exists post.
Qed.

Lemma str_in_prefix (a b : string) :
  String.prefix a b = true -> str_in a b = true.
Proof. intros H. destruct b; unfold str_in; fold str_in; by rewrite H. Qed.

(** [str_in] is substring containment. *)
Lemma str_in_app (needle pre post : string) :
  str_in needle (pre +:+ needle +:+ post) = true.
Proof.
  induction pre as [|c pre IH].
  - change (str_in needle (needle +:+ post) = true).
    apply str_in_prefix, prefix_append.
  - change (str_in needle (String c (pre +:+ needle +:+ post)) = true).
    simpl. rewrite IH. apply orb_true_r.
Qed.

Lemma str_in_split (needle hay : string) :
  str_in needle hay = true ->
  exists pre post, hay = pre +:+ needle +:+ post.
Proof.
  induction hay as [|c hay IH]; unfold str_in; fold str_in; intros H.
  - rewrite orb_false_r in H. destruct (prefix_split _ _ H) as [post ->].
    by exists EmptyString, post.
  - apply orb_true_iff in H as [H|H].
    + destruct (prefix_split _ _ H) as [post Hpost].
      exists EmptyString, post. by rewrite Hpost.
    + destruct (IH H) as (pre & post & ->).
      by exists (String c pre), post.
Qed.

(** ** The monad and the log *)

Ltac unfold_py :=
  unfold with_lock, with_BleakClient, connect, bleak_disconnect, write,
    sleep, is_connected, call, record, device_from_address,
    discovered_service_info, zoom, bind, try_, ret, raise, get, modify,
    lift_result in *.

Ltac case_split := repeat (case_match; simplify_eq; cbn in * ).

Lemma trace_of_intro {W S A : Type} {HH : HasHost W S} (m : M S A) (s : S)
    (tr : list event) :
  log (get_host (snd (m s))) = log (get_host s) ++ tr ->
  trace_of m s = tr.
Proof. intros H. unfold trace_of. rewrite H. apply drop_app_length. Qed.

Lemma in_order_from_le (least least' : nat) (tr : list event) :
  (least' <= least)%nat ->
  in_order_from least tr = true -> in_order_from least' tr = true.
Proof.
  intros Hle. destruct tr as [|ev tr]; [done|]. cbn.
  destruct (step_of ev) as [st|]; [|done].
  rewrite !andb_true_iff, !Nat.leb_le. intros [? ?]. split; [lia|done].
Qed.

Lemma lookups_app (tr1 tr2 : list event) :
  lookups (tr1 ++ tr2) = (lookups tr1 + lookups tr2)%nat.
Proof. unfold lookups. by rewrite List.filter_app, length_app. Qed.

Lemma cooldowns_app (tr1 tr2 : list event) :
  cooldowns (tr1 ++ tr2) = (cooldowns tr1 + cooldowns tr2)%nat.
Proof. unfold cooldowns. by rewrite List.filter_app, length_app. Qed.

(** ** One delivery attempt *)

Section AttemptFacts.
Context {W : Type} {adapter : Adapter W}.
Import Const Coordinator.

Arguments command_bytes : simpl never.

(** The discovery loop stops at the first service info whose name
    matches, stores its address and returns its device. *)
Lemma find_in_spec (discoveries : list ServiceInfo)
    (s : LevolorBLECoordinator W) :
  find_in discoveries s =
    match List.find name_matches discoveries with
    | Some discovery =>
        (Ok (Some (si_device discovery)),
         mkCoordinator (hass s) (si_address discovery))
    | None => (Ok None, s)
    end.
Proof.
  induction discoveries as [|discovery rest IH]; cbn; [done|].
  destruct (name_matches discovery); [done|apply IH].
Qed.

(** What the connected part of an attempt adds to the log, whatever the
    adapter answers. *)
Lemma deliver_spec (d : BLEDevice) (a : Action) (ch : Z)
    (s s' : LevolorBLECoordinator W) (r : Result bool) :
  with_BleakClient d (send_on a ch) s = (r, s') ->
  exists tr,
    log (hass s') = log (hass s) ++ tr
    /\ address s' = address s
    /\ in_order_from 1 tr = true
    /\ lookups tr = 0%nat
    /\ cooldowns tr = 0%nat
    /\ r <> Ok false
    /\ (r = Ok true ->
        exists cmd fallback,
          command_bytes a ch = Ok cmd /\
          tr = [EvConnect d;
                EvWriteGattChar d INIT_CHAR_UUID [0x88; 0xFA] None;
                EvWriteGattChar d COMMAND_CHAR_UUID cmd (Some true)] ++
               (if fallback : bool
                then [EvWriteGattChar d COMMAND_CHAR_UUID cmd (Some false)]
                else []) ++
               [EvSleep 300; EvDisconnect d]).
Proof.
  destruct s as [[w l] addr]. intros H.
  unfold send_on in H. unfold_py. cbn in H.
  case_split.
  all: rewrite <- ?app_assoc; cbn.
  all: eexists; split; [reflexivity|]; cbn; repeat split; try done.
  all: intros _; first [by eexists _, false | by eexists _, true].
Qed.

Lemma attempt_spec (a : Action) (ch : Z) (s s' : LevolorBLECoordinator W)
    (r : Result bool) :
  _send_command_once a ch s = (r, s') ->
  exists tr,
    log (hass s') = log (hass s) ++ tr
    /\ in_order tr = true
    /\ lookups tr = 1%nat
    /\ cooldowns tr = 0%nat
    /\ (exists tl, tr = EvDeviceFromAddress (address s) :: tl)
    /\ r <> Ok false
    /\ (r = Ok true ->
        exists discovered d cmd fallback,
          command_bytes a ch = Ok cmd /\
          tr = delivery_trace (address s) discovered d cmd fallback).
Proof.
  destruct s as [[w l] addr]. intros H.
  unfold _send_command_once, _find_device_by_name, device_from_address,
    discovered_service_info, record, bind, get, ret, raise, modify in H.
  cbn in H.
  destruct (async_ble_device_from_address w addr) as [d|] eqn:Hd.
  - apply deliver_spec in H as (tr & Hlog & _ & Hord & Hlk & Hcd & Hr & Hok).
    cbn in Hlog. exists (EvDeviceFromAddress addr :: tr).
    rewrite Hlog, <- app_assoc. split; [done|].
    split; [cbn; eapply in_order_from_le; [|done]; lia|].
    split; [unfold lookups in *; cbn; by rewrite Hlk|].
    split; [unfold cooldowns in *; cbn; by rewrite Hcd|].
    split; [by eexists|]. split; [done|].
    intros Hrt. destruct (Hok Hrt) as (cmd & fb & Hcmd & ->).
    by exists false, d, cmd, fb.
  - rewrite find_in_spec in H. cbn in H.
    destruct (List.find name_matches (async_discovered_service_info w))
      as [disc|] eqn:Hf.
    + apply deliver_spec in H
        as (tr & Hlog & _ & Hord & Hlk & Hcd & Hr & Hok).
      cbn in Hlog.
      exists (EvDeviceFromAddress addr :: EvDiscoveredServiceInfo :: tr).
      rewrite Hlog, <- !app_assoc. split; [done|].
      split; [cbn; eapply in_order_from_le; [|done]; lia|].
      split; [unfold lookups in *; cbn; by rewrite Hlk|].
      split; [unfold cooldowns in *; cbn; by rewrite Hcd|].
      split; [by eexists|]. split; [done|].
      intros Hrt. destruct (Hok Hrt) as (cmd & fb & Hcmd & ->).
      by exists true, (si_device disc), cmd, fb.
    + simplify_eq. cbn.
      exists [EvDeviceFromAddress addr; EvDiscoveredServiceInfo].
      rewrite <- app_assoc. repeat split; try done. by eexists.
Qed.

Lemma command_writes_app (tr1 tr2 : list event) :
  command_writes (tr1 ++ tr2) = command_writes tr1 ++ command_writes tr2.
Proof.
  induction tr1 as [|ev tr1 IH]; [done|].
  destruct ev; cbn; try done. case_match; cbn; by rewrite IH.
Qed.

(** The command writes of the connected part of an attempt. *)
Lemma deliver_writes (d : BLEDevice) (a : Action) (ch : Z)
    (s s' : LevolorBLECoordinator W) (r : Result bool) (tr : list event) :
  with_BleakClient d (send_on a ch) s = (r, s') ->
  log (hass s') = log (hass s) ++ tr ->
  command_writes tr = [] \/
  exists cmd, command_bytes a ch = Ok cmd /\
              fallback_writes cmd (command_writes tr).
Proof.
  destruct s as [[w l] addr]. intros H Hlog.
  unfold send_on in H. unfold_py. cbn in H.
  case_split.
  all: try (rewrite <- ?app_assoc in Hlog; apply app_inv_head in Hlog;
            subst tr).
  all: cbn; first [by left | right; eexists; split; [done|]].
  all: unfold fallback_writes; auto.
Qed.

Lemma attempt_writes (a : Action) (ch : Z) (s s' : LevolorBLECoordinator W)
    (r : Result bool) (tr : list event) :
  _send_command_once a ch s = (r, s') ->
  log (hass s') = log (hass s) ++ tr ->
  command_writes tr = [] \/
  exists cmd, command_bytes a ch = Ok cmd /\
              fallback_writes cmd (command_writes tr).
Proof.
  destruct s as [[w l] addr]. intros H Hlog.
  unfold _send_command_once, _find_device_by_name, device_from_address,
    discovered_service_info, record, bind, get, ret, raise, modify in H.
  cbn in H.
  destruct (async_ble_device_from_address w addr) as [d|] eqn:Hd.
  - destruct (deliver_spec _ _ _ _ _ _ H) as (tr' & Hlog' & _).
    pose proof (deliver_writes _ _ _ _ _ _ _ H Hlog') as Hw.
    cbn in Hlog, Hlog'. rewrite Hlog', <- app_assoc in Hlog.
    apply app_inv_head in Hlog. subst tr. exact Hw.
  - rewrite find_in_spec in H. cbn in H.
    destruct (List.find name_matches (async_discovered_service_info w))
      as [disc|] eqn:Hf.
    + destruct (deliver_spec _ _ _ _ _ _ H) as (tr' & Hlog' & _).
      pose proof (deliver_writes _ _ _ _ _ _ _ H Hlog') as Hw.
      cbn in Hlog, Hlog'. rewrite Hlog', <- !app_assoc in Hlog.
      apply app_inv_head in Hlog. subst tr. exact Hw.
    + simplify_eq. cbn in Hlog. rewrite <- app_assoc in Hlog.
      apply app_inv_head in Hlog. subst tr. by left.
Qed.

(** The trace of an attempt, as a function of the state. *)
Lemma attempt_is_attempt (a : Action) (ch : Z)
    (s s' : LevolorBLECoordinator W) (r : Result bool) (tr : list event) :
  _send_command_once a ch s = (r, s') ->
  log (hass s') = log (hass s) ++ tr ->
  is_attempt a ch (r, tr).
Proof.
  intros H Hlog. exists s. rewrite H. split; [done|].
  apply trace_of_intro. by rewrite H.
Qed.

End AttemptFacts.

(** ** The retry loop *)

Section RetryFacts.
Context {W : Type} {adapter : Adapter W}.
Import Const Coordinator.

Lemma is_attempt_spec (a : Action) (ch : Z) (r : Result bool)
    (tr : list event) :
  is_attempt a ch (r, tr) ->
  in_order tr = true /\ lookups tr = 1%nat /\ cooldowns tr = 0%nat /\
  (exists addr tl, tr = EvDeviceFromAddress addr :: tl) /\
  r <> Ok false.
Proof.
  intros (s & Hr & Htr). unfold trace_of in Htr.
  destruct (_send_command_once a ch s) as [r0 s'] eqn:Hrun.
  cbn [fst snd] in Hr, Htr. subst r0.
  destruct (attempt_spec _ _ _ _ _ Hrun)
    as (tr0 & Hlog & Hord & Hlk & Hcd & [tl Htl] & Hnf & _).
  assert (tr = tr0) as ->.
  { rewrite <- Htr. cbn [get_host Coordinator_HasHost].
    by rewrite Hlog, drop_app_length. }
  repeat split; try done. by eexists _, _.
Qed.

Lemma retry_runs_nonempty (a : Action) (ch : Z) (limit : nat)
    (runs : list (Result bool * list event)) (r : Result bool) :
  (0 < limit)%nat -> retry_runs a ch limit runs r -> runs <> [].
Proof.
  intros Hpos H. inversion H; subst.
  - intros ->. cbn in Hpos. lia.
  - by destruct fails.
  - by destruct fails.
Qed.

Lemma retry_runs_cons (a : Action) (ch : Z) (limit : nat)
    (run : Result bool * list event)
    (runs : list (Result bool * list event)) (r : Result bool) :
  caught_failure a ch run ->
  retry_runs a ch limit runs r ->
  retry_runs a ch (S limit) (run :: runs) r.
Proof.
  intros Hrun H. inversion H; subst.
  - apply runs_exhausted; [by constructor|done].
  - apply (runs_success a ch (S limit) (run :: fails));
      [by constructor|cbn; lia|done].
  - apply (runs_raised a ch (S limit) (run :: fails));
      [by constructor|cbn; lia|done|done].
Qed.

Lemma join_cooldown_cons (tr : list event) (rest : list (list event)) :
  rest <> [] ->
  join_cooldown (tr :: rest) = tr ++ EvSleep 1000 :: join_cooldown rest.
Proof. by destruct rest. Qed.

(** The loop over the iterations [k, k + m), where [k + m] is the retry
    count: its trace is the attempts joined by cooldowns, and its outcome
    is one of the three of [retry_runs]. *)
Lemma retry_loop_spec (a : Action) (ch n : Z) (m : nat) :
  forall (k : nat) (s s' : LevolorBLECoordinator W) (r : Result bool),
    (k + m)%nat = Z.to_nat n ->
    retry_loop a ch n (map Z.of_nat (seq k m)) s = (r, s') ->
    exists runs,
      log (hass s') = log (hass s) ++ join_cooldown (map snd runs) /\
      retry_runs a ch m runs r.
Proof.
  induction m as [|m IH]; intros k s s' r Hkm H.
  - cbn in H. unfold ret in H. simplify_eq.
    exists []. cbn. rewrite app_nil_r. split; [done|].
    by apply runs_exhausted.
  - cbn [seq map retry_loop] in H. unfold bind at 1, try_ in H.
    destruct (_send_command_once a ch s) as [r1 s1] eqn:Hrun.
    destruct (attempt_spec _ _ _ _ _ Hrun)
      as (tr1 & Hlog1 & _ & _ & _ & _ & Hnf & _).
    pose proof (attempt_is_attempt _ _ _ _ _ _ Hrun Hlog1) as Hatt.
    destruct r1 as [[|]|e]; [| done |].
    + unfold ret in H. simplify_eq.
      exists [(Ok true, tr1)]. cbn. split; [done|].
      apply (runs_success a ch (S m) []); [done|cbn; lia|done].
    + fold (handled e) in H. destruct (handled e) eqn:He.
      * assert (Hc : caught_failure a ch (Raise e, tr1)).
        { split; [done|]. by exists e. }
        destruct (Z.of_nat k <? n - 1) eqn:Hlast.
        -- apply Z.ltb_lt in Hlast.
           unfold bind at 1, sleep, call in H. cbn in H.
           apply IH in H as (runs & Hlog & Hruns); [|lia].
           cbn in Hlog.
           exists ((Raise e, tr1) :: runs). split.
           ++ cbn [map snd]. rewrite join_cooldown_cons.
              ** rewrite Hlog, Hlog1, <- !app_assoc. reflexivity.
              ** intros Hnil. apply map_eq_nil in Hnil.
                 assert (Hm : (0 < m)%nat) by lia.
                 exact (retry_runs_nonempty a ch m runs r Hm Hruns Hnil).
           ++ by apply retry_runs_cons.
        -- apply Z.ltb_ge in Hlast.
           assert (m = 0%nat) as -> by lia.
           unfold bind in H. cbn in H. unfold ret in H. simplify_eq.
           exists [(Raise e, tr1)]. cbn. split; [done|].
           apply runs_exhausted; [by constructor|done].
      * unfold raise in H. simplify_eq.
        exists [(Raise e, tr1)]. cbn. split; [done|].
        apply (runs_raised a ch (S m) []); [done|cbn; lia|done|done].
Qed.

Lemma async_send_command_unfold (a : Action) (ch n : Z)
    (s : LevolorBLECoordinator W) :
  async_send_command a ch n s =
    let '(r, s1) :=
      retry_loop a ch n (range n)
        (mkCoordinator (mkHost (world (hass s))
                               (log (hass s) ++ [EvLockAcquire]))
                       (address s)) in
    (r, mkCoordinator (mkHost (world (hass s1))
                              (log (hass s1) ++ [EvLockRelease]))
                      (address s1)).
Proof.
  unfold async_send_command, with_lock, bind, try_, record, modify,
    lift_result. cbn.
  destruct (retry_loop a ch n (range n) _) as [[b|e] s1]; reflexivity.
Qed.

(** [async_send_command]: the lock is taken, the attempts run one after
    the other with a cooldown between each two, the lock is released. *)
Lemma async_send_command_spec (a : Action) (ch n : Z)
    (s : LevolorBLECoordinator W) :
  exists runs,
    trace_of (async_send_command a ch n) s =
      EvLockAcquire :: join_cooldown (map snd runs) ++ [EvLockRelease] /\
    retry_runs a ch (Z.to_nat n) runs (fst (async_send_command a ch n s)).
Proof.
  unfold trace_of. rewrite async_send_command_unfold.
  destruct (retry_loop a ch n (range n) _) as [r s1] eqn:Hloop.
  unfold range in Hloop.
  apply (retry_loop_spec a ch n (Z.to_nat n) 0) in Hloop
    as (runs & Hlog & Hruns); [|done].
  cbn in Hlog. exists runs. split; [|done].
  cbn. rewrite Hlog, <- !app_assoc. by rewrite drop_app_length.
Qed.

Lemma lookups_join (a : Action) (ch : Z)
    (runs : list (Result bool * list event)) :
  Forall (is_attempt a ch) runs ->
  lookups (join_cooldown (map snd runs)) = length runs.
Proof.
  induction 1 as [|[r tr] runs Hrun Hall IH]; [done|].
  apply is_attempt_spec in Hrun as (_ & Hlk & _).
  destruct runs as [|run runs]; [by cbn|].
  cbn [map snd] in *. rewrite join_cooldown_cons by done.
  rewrite lookups_app, Hlk.
  change (lookups (EvSleep 1000 :: ?x)) with (lookups x).
  by rewrite IH.
Qed.

Lemma cooldowns_join (a : Action) (ch : Z)
    (runs : list (Result bool * list event)) :
  Forall (is_attempt a ch) runs ->
  cooldowns (join_cooldown (map snd runs)) = Nat.pred (length runs).
Proof.
  induction 1 as [|[r tr] runs Hrun Hall IH]; [done|].
  apply is_attempt_spec in Hrun as (_ & _ & Hcd & _).
  destruct runs as [|run runs]; [by cbn|].
  cbn [map snd] in *. rewrite join_cooldown_cons by done.
  rewrite cooldowns_app, Hcd.
  change (cooldowns (EvSleep 1000 :: ?x)) with (S (cooldowns x)).
  by rewrite IH.
Qed.

Lemma caught_failures_are_attempts (a : Action) (ch : Z)
    (runs : list (Result bool * list event)) :
  Forall (caught_failure a ch) runs -> Forall (is_attempt a ch) runs.
Proof. intros H. eapply Forall_impl; [exact H|]. by intros run [? _]. Qed.

Lemma retry_runs_are_attempts (a : Action) (ch : Z) (limit : nat)
    (runs : list (Result bool * list event)) (r : Result bool) :
  retry_runs a ch limit runs r -> Forall (is_attempt a ch) runs.
Proof.
  intros H. inversion H; subst.
  - by apply caught_failures_are_attempts.
  - apply Forall_app. split; [by apply caught_failures_are_attempts|].
    by constructor.
  - apply Forall_app. split; [by apply caught_failures_are_attempts|].
    by constructor.
Qed.

End RetryFacts.

(** ** The frames written by a command *)

Section FrameFacts.
Context {W : Type} {adapter : Adapter W}.
Import Const Coordinator.

Lemma is_attempt_frames (a : Action) (ch : Z)
    (run : Result bool * list event) :
  is_attempt a ch run ->
  Forall (fun w => command_bytes a ch = Ok (fst w))
         (command_writes (snd run)).
Proof.
  destruct run as [r tr]. intros (s & Hr & Htr). cbn [fst snd] in *.
  unfold trace_of in Htr.
  destruct (_send_command_once a ch s) as [r0 s'] eqn:Hrun.
  destruct (attempt_spec _ _ _ _ _ Hrun) as (tr0 & Hlog & _).
  destruct (attempt_writes _ _ _ _ _ _ Hrun Hlog) as [Hw|(cmd & Hcmd & Hw)].
  all: cbn [snd get_host Coordinator_HasHost] in Htr.
  all: rewrite Hlog, drop_app_length in Htr; subst tr0.
  - rewrite Hw. constructor.
  - destruct Hw as [->|[->| ->]]; repeat constructor; done.
Qed.

Lemma join_frames (a : Action) (ch : Z)
    (runs : list (Result bool * list event)) :
  Forall (is_attempt a ch) runs ->
  Forall (fun w => command_bytes a ch = Ok (fst w))
         (command_writes (join_cooldown (map snd runs))).
Proof.
  induction 1 as [|run runs Hrun Hall IH]; [constructor|].
  apply is_attempt_frames in Hrun.
  destruct runs as [|run' runs]; [done|].
  cbn [map snd] in *. rewrite join_cooldown_cons by done.
  rewrite command_writes_app. apply Forall_app. split; [done|].
  exact IH.
Qed.

Lemma async_send_command_frames (a : Action) (ch n : Z)
    (s : LevolorBLECoordinator W) :
  Forall (fun w => command_bytes a ch = Ok (fst w))
         (command_writes (trace_of (async_send_command a ch n) s)).
Proof.
  destruct (async_send_command_spec a ch n s) as (runs & -> & Hruns).
  apply retry_runs_are_attempts in Hruns.
  cbn [command_writes]. rewrite command_writes_app, app_nil_r.
  by apply join_frames.
Qed.

End FrameFacts.

(** ** The command codec *)

(** C1. For every action code and every channel in 1..6 the command is
    encoded as exactly the three bytes 0xF1, action, channel.  The
    encoding is a function of its two arguments alone (it reads and
    writes no state), and on these inputs it does not raise. *)
Theorem command_frame (action : Const.Action) (channel : Z) :
  1 <= channel <= 6 ->
  command_bytes action channel
    = Ok [0xF1; Const.Action_value action; channel] /\
  length [0xF1; Const.Action_value action; channel] = 3%nat /\
  0x01 <= Const.Action_value action <= 0x06.
Proof.
  intros Hch. split; [|split; [done|apply Action_value_range]].
  unfold command_bytes. apply bytes_of_ok.
  pose proof (Action_value_range action).
  repeat constructor; unfold Const.CMD_PREFIX; lia.
Qed.

Lemma command_frame_witness :
  command_bytes Const.STOP 6 = Ok [0xF1; 0x06; 6].
Proof.
  exact (proj1 (command_frame Const.STOP 6 ltac:(lia))).
Defined.

(** ** Channels outside 1..6 *)

(** The standalone client refuses a channel outside 1..6: [send_command]
    returns [False] and makes no call. *)
Lemma cli_rejects_channel {W : Type} {adapter : Adapter W}
    (action : Const.Action) (channel : Z) (s : Cli.LevolorRemote W) :
  ~ 1 <= channel <= 6 ->
  fst (Cli.send_command action channel s) = Ok false /\
  log (Cli.host (snd (Cli.send_command action channel s)))
    = log (Cli.host s).
Proof.
  intros Hch. unfold Cli.send_command, Cli.client_connected.
  unfold_py. cbn.
  destruct (Cli.client s) as [c|]; [|done]. cbn.
  destruct (client_is_connected c _); [|done]. cbn.
  destruct (channel <? 1) eqn:H1; [done|].
  destruct (channel >? 6) eqn:H6; [done|]. lia.
Qed.

(** C2. The coordinator does not look at the channel before it talks to
    the device: with channel 7 and a reachable remote,
    [async_send_command] resolves, connects, arms, writes the frame
    0xF1 0x01 0x07 and returns [True]. *)
Example coordinator_sends_channel_7 :
  fst (Coordinator.async_send_command (adapter := Script.scripted Script.healthy)
         Const.OPEN 7 3 Script.coordinator0) = Ok true /\
  trace_of (Coordinator.async_send_command
              (adapter := Script.scripted Script.healthy) Const.OPEN 7 3)
           Script.coordinator0 =
    [EvLockAcquire;
     EvDeviceFromAddress "AA:BB:CC:DD:EE:FF";
     EvConnect Script.remote;
     EvWriteGattChar Script.remote Const.INIT_CHAR_UUID [0x88; 0xFA] None;
     EvWriteGattChar Script.remote Const.COMMAND_CHAR_UUID [0xF1; 0x01; 7]
                     (Some true);
     EvSleep 300;
     EvDisconnect Script.remote;
     EvLockRelease].
Proof. split; reflexivity. Qed.

(** ** No iteration *)

Section NoIteration.
Context {W : Type} {adapter : Adapter W}.
Import Const Coordinator.

(** C9. With [retry_count <= 0] the loop body never runs:
    [async_send_command] returns [False] having taken and released the
    lock and made no call to the adapter, and the coordinator is
    otherwise unchanged. *)
Theorem no_attempt_without_retries (action : Action) (channel : Z)
    (retry_count : Z) (s : LevolorBLECoordinator W) :
  retry_count <= 0 ->
  async_send_command action channel retry_count s =
    (Ok false,
     mkCoordinator
       (mkHost (world (hass s))
               (log (hass s) ++ [EvLockAcquire; EvLockRelease]))
       (address s)) /\
  adapter_calls (trace_of (async_send_command action channel retry_count) s)
    = [].
Proof.
  intros Hn.
  assert (Heq : async_send_command action channel retry_count s =
    (Ok false,
     mkCoordinator
       (mkHost (world (hass s))
               (log (hass s) ++ [EvLockAcquire; EvLockRelease]))
       (address s))).
  { rewrite async_send_command_unfold, range_nonpositive by done.
    cbn. by rewrite <- app_assoc. }
  split; [done|].
  rewrite (trace_of_intro _ _ [EvLockAcquire; EvLockRelease]); [done|].
  by rewrite Heq.
Qed.

End NoIteration.

Lemma no_attempt_without_retries_witness :
  Coordinator.async_send_command (adapter := Script.scripted Script.healthy)
    Const.OPEN 1 0 Script.coordinator0 =
  (Ok false,
   Coordinator.mkCoordinator
     (mkHost O [EvLockAcquire; EvLockRelease]) "AA:BB:CC:DD:EE:FF").
Proof.
  exact (proj1 (no_attempt_without_retries
                  (adapter := Script.scripted Script.healthy)
                  Const.OPEN 1 0 Script.coordinator0 ltac:(lia))).
Defined.

(** ** Exceptions and the retry loop *)

Section BoundaryFacts.
Context {W : Type} {adapter : Adapter W}.
Import Const Coordinator.

Lemma range_positive (n : Z) :
  0 < n -> exists rest, range n = 0 :: rest.
Proof.
  intros Hn. unfold range.
  destruct (Z.to_nat n) as [|m] eqn:Hm; [lia|].
  by eexists.
Qed.

(** An attempt that resolves no device raises [HomeAssistantError]
    after the lookup and the discovery. *)
Lemma attempt_unresolved (a : Action) (ch : Z) (w : W) (l : list event)
    (addr : string) :
  unresolved (mkCoordinator (mkHost w l) addr) ->
  _send_command_once a ch (mkCoordinator (mkHost w l) addr) =
    (Raise (HomeAssistantError (not_found_message addr)),
     mkCoordinator
       (mkHost w (l ++ [EvDeviceFromAddress addr; EvDiscoveredServiceInfo]))
       addr).
Proof.
  intros [Haddr Hfind]. cbn in Haddr, Hfind.
  unfold _send_command_once, _find_device_by_name, device_from_address,
    discovered_service_info, record, bind, get, ret, raise, modify.
  cbn. rewrite Haddr. rewrite find_in_spec. cbn. rewrite Hfind.
  by rewrite <- app_assoc.
Qed.

(** C3, as the code has it.  An exception the loop handles, [BleakError]
    or [TimeoutError], never leaves [async_send_command]: what reaches
    the caller is a boolean or an exception of another class.  The
    attempts made are handled failures followed by at most one attempt
    that ends the loop, each of them starting with its own address
    lookup.  An attempt that ends with an exception of another class
    ends the call: when the first attempt resolves no device, neither
    by address nor by discovery, the caller gets [HomeAssistantError]
    after that single attempt. *)
Theorem handled_exceptions_stay_inside (action : Action) (channel : Z)
    (retry_count : Z) (s : LevolorBLECoordinator W) :
  (forall e, fst (async_send_command action channel retry_count s) = Raise e ->
             handled e = false) /\
  (exists runs,
     trace_of (async_send_command action channel retry_count) s =
       EvLockAcquire :: join_cooldown (map snd runs) ++ [EvLockRelease] /\
     retry_runs action channel (Z.to_nat retry_count) runs
                (fst (async_send_command action channel retry_count s)) /\
     Forall (fun run => exists addr tl,
                          snd run = EvDeviceFromAddress addr :: tl) runs) /\
  (0 < retry_count -> unresolved s ->
   fst (async_send_command action channel retry_count s) =
     Raise (HomeAssistantError (not_found_message (address s))) /\
   trace_of (async_send_command action channel retry_count) s =
     [EvLockAcquire; EvDeviceFromAddress (address s);
      EvDiscoveredServiceInfo; EvLockRelease]).
Proof.
  destruct (async_send_command_spec action channel retry_count s)
    as (runs & Htr & Hruns).
  split; [|split].
  - intros e He. rewrite He in Hruns. by inversion Hruns.
  - exists runs. split; [done|]. split; [done|].
    apply retry_runs_are_attempts in Hruns.
    eapply Forall_impl; [exact Hruns|].
    intros [r tr] Hatt. by apply is_attempt_spec in Hatt as (_ & _ & _ & ? & _).
  - intros Hn Hun. destruct s as [[w l] addr].
    assert (Heq : async_send_command action channel retry_count
                    (mkCoordinator (mkHost w l) addr) =
      (Raise (HomeAssistantError (not_found_message addr)),
       mkCoordinator
         (mkHost w (l ++ [EvLockAcquire; EvDeviceFromAddress addr;
                          EvDiscoveredServiceInfo; EvLockRelease]))
         addr)).
    { rewrite async_send_command_unfold.
      destruct (range_positive _ Hn) as [rest ->]. cbn [retry_loop].
      unfold bind at 1, try_. cbn [hass world log address].
      rewrite attempt_unresolved by exact Hun.
      cbn. by rewrite <- !app_assoc. }
    split; [by rewrite Heq|].
    apply trace_of_intro. by rewrite Heq.
Qed.


End BoundaryFacts.

(** With no device in reach, the caller of [async_send_command] gets
    [HomeAssistantError], and gets it after one attempt out of three. *)
Lemma unreachable_device_raises :
  fst (Coordinator.async_send_command
         (adapter := Script.scripted Script.absent)
         Const.OPEN 1 3 Script.coordinator0) =
    Raise (HomeAssistantError
             "Levolor remote not found at AA:BB:CC:DD:EE:FF. Ensure it's powered on and nearby.") /\
  trace_of (Coordinator.async_send_command
              (adapter := Script.scripted Script.absent) Const.OPEN 1 3)
           Script.coordinator0 =
    [EvLockAcquire; EvDeviceFromAddress "AA:BB:CC:DD:EE:FF";
     EvDiscoveredServiceInfo; EvLockRelease].
Proof. split; reflexivity. Qed.

Lemma handled_exceptions_stay_inside_witness :
  fst (Coordinator.async_send_command
         (adapter := Script.scripted Script.absent)
         Const.OPEN 1 3 Script.coordinator0) =
    Raise (HomeAssistantError
             (Coordinator.not_found_message "AA:BB:CC:DD:EE:FF")) /\
  trace_of (Coordinator.async_send_command
              (adapter := Script.scripted Script.absent) Const.OPEN 1 3)
           Script.coordinator0 =
    [EvLockAcquire; EvDeviceFromAddress "AA:BB:CC:DD:EE:FF";
     EvDiscoveredServiceInfo; EvLockRelease].
Proof.
  apply (handled_exceptions_stay_inside
           (adapter := Script.scripted Script.absent)
           Const.OPEN 1 3 Script.coordinator0).
  - lia.
  - split; reflexivity.
Defined.



(** ** The write fallback *)

Section FallbackFacts.
Context {W : Type} {adapter : Adapter W}.
Import Const Coordinator.

Arguments command_bytes : simpl never.

(** Use what a scripted hypothesis says about the call on world [w]. *)
Ltac answer H w :=
  let E := fresh "E" in
  let X := fresh "X" in
  match type of (H w) with
  | fst ?call = _ =>
      destruct call as [? ?] eqn:E; pose proof (H w) as X;
      rewrite E in X; cbn [fst] in X; subst
  | exists _, fst ?call = _ =>
      destruct call as [? ?] eqn:E; pose proof (H w) as [? X];
      rewrite E in X; cbn [fst] in X; subst
  end.

Ltac answer_all Hconn Harm Hack Hnoack Hdisc :=
  repeat (cbn;
    match goal with
    | |- context [client_connect ?d ?w0] => answer Hconn w0
    | |- context [write_gatt_char ?d INIT_CHAR_UUID _ _ ?w0] =>
        answer Harm w0
    | |- context [write_gatt_char ?d COMMAND_CHAR_UUID _ (Some true) ?w0] =>
        answer Hack w0
    | |- context [write_gatt_char ?d COMMAND_CHAR_UUID _ (Some false) ?w0] =>
        answer Hnoack w0
    | |- context [client_disconnect ?d ?w0] => answer Hdisc w0
    end).

Lemma attempt_command_writes (action : Action) (channel : Z)
    (s : LevolorBLECoordinator W) :
  command_writes (trace_of (_send_command_once action channel) s) = [] \/
  exists command,
    command_bytes action channel = Ok command /\
    fallback_writes command
      (command_writes (trace_of (_send_command_once action channel) s)).
Proof.
  destruct (_send_command_once action channel s) as [r s'] eqn:Hrun.
  destruct (attempt_spec _ _ _ _ _ Hrun) as (tr & Hlog & _).
  rewrite (trace_of_intro _ _ tr) by by rewrite Hrun.
  exact (attempt_writes _ _ _ _ _ _ Hrun Hlog).
Qed.

(** C5.  In one attempt the command characteristic is written at most
    twice, with the same frame: with response, and only after that
    without.  On an adapter that resolves, connects, arms and
    disconnects without error and rejects the write with response by
    [BleakError]: if the write without response succeeds the attempt
    returns [True] after exactly those two writes, the settle sleep and
    the disconnect; if it raises too, nothing more is tried: the attempt
    disconnects and raises that exception. *)
Theorem write_fallback (action : Action) (channel : Z) (command : bytes)
    (d : BLEDevice) (s : LevolorBLECoordinator W) :
  async_ble_device_from_address (world (hass s)) (address s) = Some d ->
  command_bytes action channel = Ok command ->
  (forall w, fst (client_connect d w) = None) ->
  (forall w, fst (write_gatt_char d INIT_CHAR_UUID INIT_PAYLOAD None w)
             = None) ->
  (forall w, exists msg,
      fst (write_gatt_char d COMMAND_CHAR_UUID command (Some true) w)
        = Some (BleakError msg)) ->
  (forall w, fst (client_disconnect d w) = None) ->
  fallback_writes command
    (command_writes (trace_of (_send_command_once action channel) s)) /\
  ((forall w, fst (write_gatt_char d COMMAND_CHAR_UUID command (Some false) w)
              = None) ->
   fst (_send_command_once action channel s) = Ok true /\
   trace_of (_send_command_once action channel) s =
     delivery_trace (address s) false d command true /\
   command_writes (trace_of (_send_command_once action channel) s) =
     [(command, Some true); (command, Some false)]) /\
  (forall e,
     (forall w,
        fst (write_gatt_char d COMMAND_CHAR_UUID command (Some false) w)
          = Some e) ->
     fst (_send_command_once action channel s) = Raise e /\
     trace_of (_send_command_once action channel) s =
       [EvDeviceFromAddress (address s); EvConnect d;
        EvWriteGattChar d INIT_CHAR_UUID [0x88; 0xFA] None;
        EvWriteGattChar d COMMAND_CHAR_UUID command (Some true);
        EvWriteGattChar d COMMAND_CHAR_UUID command (Some false);
        EvDisconnect d]).
Proof.
  intros Hres Hcmd Hconn Harm Hack Hdisc.
  split.
  { destruct (attempt_command_writes action channel s)
      as [Hw|(cmd & Hc & Hw)].
    - rewrite Hw. by left.
    - rewrite Hcmd in Hc. by simplify_eq. }
  destruct s as [[w l] addr]. cbn [hass world address] in *.
  split.
  - intros Hnoack.
    assert (Heq : exists w',
      _send_command_once action channel (mkCoordinator (mkHost w l) addr) =
      (Ok true,
       mkCoordinator
         (mkHost w' (l ++ delivery_trace addr false d command true)) addr)).
    { unfold _send_command_once, send_on. unfold_py. cbn.
      rewrite Hres. cbn. answer Hconn w. cbn.
      match goal with
      | |- context [write_gatt_char d INIT_CHAR_UUID _ _ ?w0] =>
          answer Harm w0
      end. cbn. rewrite Hcmd.
      answer_all Hconn Harm Hack Hnoack Hdisc.
      eexists. rewrite <- !app_assoc. reflexivity. }
    destruct Heq as [w' Heq].
    rewrite (trace_of_intro _ _ (delivery_trace addr false d command true))
      by by rewrite Heq.
    by rewrite Heq.
  - intros e Hnoack.
    assert (Heq : exists w',
      _send_command_once action channel (mkCoordinator (mkHost w l) addr) =
      (Raise e,
       mkCoordinator
         (mkHost w'
            (l ++ [EvDeviceFromAddress addr; EvConnect d;
                   EvWriteGattChar d INIT_CHAR_UUID [0x88; 0xFA] None;
                   EvWriteGattChar d COMMAND_CHAR_UUID command (Some true);
                   EvWriteGattChar d COMMAND_CHAR_UUID command (Some false);
                   EvDisconnect d])) addr)).
    { unfold _send_command_once, send_on. unfold_py. cbn.
      rewrite Hres. cbn. answer Hconn w. cbn.
      match goal with
      | |- context [write_gatt_char d INIT_CHAR_UUID _ _ ?w0] =>
          answer Harm w0
      end. cbn. rewrite Hcmd.
      answer_all Hconn Harm Hack Hnoack Hdisc.
      eexists. rewrite <- !app_assoc. reflexivity. }
    destruct Heq as [w' Heq].
    rewrite (trace_of_intro _ _
               [EvDeviceFromAddress addr; EvConnect d;
                EvWriteGattChar d INIT_CHAR_UUID [0x88; 0xFA] None;
                EvWriteGattChar d COMMAND_CHAR_UUID command (Some true);
                EvWriteGattChar d COMMAND_CHAR_UUID command (Some false);
                EvDisconnect d]) by by rewrite Heq.
    by rewrite Heq.
Qed.

End FallbackFacts.

Lemma write_fallback_witness :
  fst (Coordinator._send_command_once
         (adapter := Script.scripted Script.no_ack) Const.OPEN 1
         Script.coordinator0) = Ok true /\
  trace_of (Coordinator._send_command_once
              (adapter := Script.scripted Script.no_ack) Const.OPEN 1)
           Script.coordinator0 =
    delivery_trace "AA:BB:CC:DD:EE:FF" false Script.remote [0xF1; 0x01; 1]
                   true /\
  command_writes
    (trace_of (Coordinator._send_command_once
                 (adapter := Script.scripted Script.no_ack) Const.OPEN 1)
              Script.coordinator0) =
    [([0xF1; 0x01; 1], Some true); ([0xF1; 0x01; 1], Some false)].
Proof.
  apply (write_fallback (adapter := Script.scripted Script.no_ack)
           Const.OPEN 1 [0xF1; 0x01; 1] Script.remote Script.coordinator0).
  - reflexivity.
  - reflexivity.
  - intros w. reflexivity.
  - intros w. reflexivity.
  - intros w. eexists. reflexivity.
  - intros w. reflexivity.
  - intros w. reflexivity.
Defined.

(** ** The order of the steps *)

Section OrderFacts.
Context {W : Type} {adapter : Adapter W}.
Import Const Coordinator.

Arguments command_bytes : simpl never.

(** The connected part of an attempt starts by connecting, and leaves
    the stored address alone. *)
Lemma deliver_head (d : BLEDevice) (a : Action) (ch : Z)
    (s : LevolorBLECoordinator W) :
  address (snd (with_BleakClient d (send_on a ch) s)) = address s /\
  exists tl,
    log (hass (snd (with_BleakClient d (send_on a ch) s))) =
      log (hass s) ++ EvConnect d :: tl.
Proof.
  destruct (with_BleakClient d (send_on a ch) s) as [r s'] eqn:H.
  destruct s as [[w l] addr].
  unfold send_on in H. unfold_py. cbn in H.
  case_split.
  all: rewrite <- ?app_assoc; cbn; split; [done|]; by eexists.
Qed.


End OrderFacts.


(** ** Rediscovery *)

Section RediscoveryFacts.
Context {W : Type} {adapter : Adapter W}.
Import Const Coordinator.

Lemma marker_name_matches (x : ServiceInfo) (n : string) :
  si_name x = Some n -> str_in LEVOLOR_DEVICE_NAME n = true ->
  name_matches x = true.
Proof.
  intros Hn Hin. unfold name_matches. rewrite Hn, Hin.
  by destruct n.
Qed.

Lemma name_matches_marker (x : ServiceInfo) :
  name_matches x = true ->
  exists n, si_name x = Some n /\ str_in LEVOLOR_DEVICE_NAME n = true.
Proof.
  unfold name_matches. destruct (si_name x) as [n|]; [|done].
  intros H. apply andb_true_iff in H as [_ H]. by exists n.
Qed.

(** C7.  When the lookup of the stored address finds nothing and the
    discovered service infos include one whose name contains "Levolor",
    [_find_device_by_name] picks the first such info, stores its address
    in the coordinator and returns its device; the attempt goes on to
    connect to that device, and the next attempt looks up the new
    address. *)
Theorem rediscovery_updates_address (action : Action) (channel : Z)
    (s : LevolorBLECoordinator W) (x : ServiceInfo) (n : string) :
  async_ble_device_from_address (world (hass s)) (address s) = None ->
  In x (async_discovered_service_info (world (hass s))) ->
  si_name x = Some n ->
  str_in LEVOLOR_DEVICE_NAME n = true ->
  exists found,
    List.find name_matches (async_discovered_service_info (world (hass s)))
      = Some found /\
    (exists n', si_name found = Some n' /\
                str_in LEVOLOR_DEVICE_NAME n' = true) /\
    fst (_find_device_by_name s) = Ok (Some (si_device found)) /\
    address (snd (_find_device_by_name s)) = si_address found /\
    address (snd (_send_command_once action channel s)) = si_address found /\
    (exists tl,
       trace_of (_send_command_once action channel) s =
         EvDeviceFromAddress (address s) :: EvDiscoveredServiceInfo ::
         EvConnect (si_device found) :: tl) /\
    (forall action' channel', exists tl,
       trace_of (_send_command_once action' channel')
                (snd (_send_command_once action channel s)) =
         EvDeviceFromAddress (si_address found) :: tl).
Proof.
  intros Hnone Hin Hname Hmark.
  pose proof (marker_name_matches _ _ Hname Hmark) as Hx.
  destruct (List.find name_matches
              (async_discovered_service_info (world (hass s))))
    as [found|] eqn:Hfind.
  2:{ pose proof (find_none _ _ Hfind x Hin) as Hf.
      rewrite Hx in Hf. discriminate Hf. }
  exists found. split; [done|].
  split; [apply name_matches_marker; by apply find_some in Hfind as [_ ?]|].
  destruct s as [[w l] addr]. cbn [hass world address] in *.
  assert (Hfd : _find_device_by_name (mkCoordinator (mkHost w l) addr) =
            (Ok (Some (si_device found)),
             mkCoordinator (mkHost w (l ++ [EvDiscoveredServiceInfo]))
                           (si_address found))).
  { unfold _find_device_by_name, discovered_service_info, record, bind, get,
      ret, modify. cbn. rewrite find_in_spec. cbn. by rewrite Hfind. }
  rewrite Hfd. split; [done|]. split; [done|].
  assert (Hrun : _send_command_once action channel
                   (mkCoordinator (mkHost w l) addr) =
                 with_BleakClient (si_device found) (send_on action channel)
                   (mkCoordinator
                      (mkHost w (l ++ [EvDeviceFromAddress addr;
                                       EvDiscoveredServiceInfo]))
                      (si_address found))).
  { unfold _send_command_once, _find_device_by_name, device_from_address,
      discovered_service_info, record, bind, get, ret, modify. cbn.
    rewrite Hnone. rewrite find_in_spec. cbn. rewrite Hfind.
    by rewrite <- app_assoc. }
  match type of Hrun with
  | _ = with_BleakClient ?d ?b ?s0 =>
      destruct (deliver_head d action channel s0) as (Haddr & tl & Hlog)
  end.
  rewrite <- Hrun in Haddr, Hlog. cbn [address hass log] in Haddr, Hlog.
  split; [done|]. split.
  - exists tl. apply trace_of_intro. cbn [get_host Coordinator_HasHost].
    rewrite Hlog. cbn [hass log]. by rewrite <- app_assoc.
  - intros action' channel'.
    destruct (_send_command_once action' channel'
                (snd (_send_command_once action channel
                        (mkCoordinator (mkHost w l) addr))))
      as [r2 s2] eqn:Hrun2.
    destruct (attempt_spec _ _ _ _ _ Hrun2)
      as (tr2 & Hlog2 & _ & _ & _ & [tl2 Htl2] & _).
    exists tl2. rewrite <- Haddr, <- Htl2.
    apply trace_of_intro. by rewrite Hrun2.
Qed.

End RediscoveryFacts.

Lemma rediscovery_updates_address_witness :
  exists found,
    List.find Coordinator.name_matches
              (Script.discoveries Script.rotated) = Some found /\
    (exists n', si_name found = Some n' /\
                str_in Const.LEVOLOR_DEVICE_NAME n' = true) /\
    fst (Coordinator._find_device_by_name
           (adapter := Script.scripted Script.rotated) Script.coordinator0)
      = Ok (Some (si_device found)) /\
    Coordinator.address
      (snd (Coordinator._find_device_by_name
              (adapter := Script.scripted Script.rotated)
              Script.coordinator0)) = si_address found /\
    Coordinator.address
      (snd (Coordinator._send_command_once
              (adapter := Script.scripted Script.rotated) Const.OPEN 1
              Script.coordinator0)) = si_address found /\
    (exists tl,
       trace_of (Coordinator._send_command_once
                   (adapter := Script.scripted Script.rotated) Const.OPEN 1)
                Script.coordinator0 =
         EvDeviceFromAddress "AA:BB:CC:DD:EE:FF" :: EvDiscoveredServiceInfo ::
         EvConnect (si_device found) :: tl) /\
    (forall action' channel', exists tl,
       trace_of (Coordinator._send_command_once
                   (adapter := Script.scripted Script.rotated)
                   action' channel')
                (snd (Coordinator._send_command_once
                        (adapter := Script.scripted Script.rotated)
                        Const.OPEN 1 Script.coordinator0)) =
         EvDeviceFromAddress (si_address found) :: tl).
Proof.
  apply (rediscovery_updates_address
           (adapter := Script.scripted Script.rotated) Const.OPEN 1
           Script.coordinator0
           (mkInfo (Some "Levolor Remote"%string) "11:22:33:44:55:66"
                   Script.moved)
           "Levolor Remote").
  - reflexivity.
  - right. left. reflexivity.
  - reflexivity.
  - reflexivity.
Defined.

(** ** The cover entity *)

Section CoverFacts.
Context {W : Type} {adapter : Adapter W}.
Import Const Coordinator Cover.

Arguments async_send_command : simpl never.





End CoverFacts.


(** ** Runs on the scripted adapters *)

(** A configured, reachable remote: one attempt, in the order connect,
    arm, command write with response, settle, disconnect. *)
Example healthy_open_channel_1 :
  Coordinator.async_send_command (adapter := Script.scripted Script.healthy)
    Const.OPEN 1 Const.DEFAULT_RETRY_COUNT Script.coordinator0 =
  (Ok true,
   Coordinator.mkCoordinator
     (mkHost 1%nat
        [EvLockAcquire;
         EvDeviceFromAddress "AA:BB:CC:DD:EE:FF";
         EvConnect Script.remote;
         EvWriteGattChar Script.remote Const.INIT_CHAR_UUID [0x88; 0xFA] None;
         EvWriteGattChar Script.remote Const.COMMAND_CHAR_UUID
                         [0xF1; 0x01; 0x01] (Some true);
         EvSleep 300;
         EvDisconnect Script.remote;
         EvLockRelease])
     "AA:BB:CC:DD:EE:FF").
Proof. reflexivity. Qed.

(** A timeout on the first connection: one cooldown, then a second
    attempt that starts again from the lookup and succeeds. *)
Example flaky_second_attempt :
  fst (Coordinator.async_send_command
         (adapter := Script.scripted Script.flaky)
         Const.CLOSE 2 3 Script.coordinator0) = Ok true /\
  trace_of (Coordinator.async_send_command
              (adapter := Script.scripted Script.flaky) Const.CLOSE 2 3)
           Script.coordinator0 =
    EvLockAcquire ::
    join_cooldown
      [[EvDeviceFromAddress "AA:BB:CC:DD:EE:FF"; EvConnect Script.remote];
       delivery_trace "AA:BB:CC:DD:EE:FF" false Script.remote
                      [0xF1; 0x02; 2] false]
    ++ [EvLockRelease].
Proof. split; reflexivity. Qed.

(** Both command writes rejected: the attempt disconnects without the
    settle sleep and raises the second [BleakError]; the loop handles
    it, and with one iteration the caller gets [False]. *)
Example no_write_is_terminal :
  fst (Coordinator._send_command_once
         (adapter := Script.scripted Script.no_write) Const.STOP 3
         Script.coordinator0) = Raise (BleakError "write failed") /\
  fst (Coordinator.async_send_command
         (adapter := Script.scripted Script.no_write) Const.STOP 3 1
         Script.coordinator0) = Ok false.
Proof. split; reflexivity. Qed.

(** A remote that moved: the attempt stores the new address and
    succeeds on the rediscovered device. *)
Example rotated_address :
  let run := Coordinator.async_send_command
               (adapter := Script.scripted Script.rotated)
               Const.OPEN 1 3 Script.coordinator0 in
  fst run = Ok true /\
  Coordinator.address (snd run) = "11:22:33:44:55:66"%string.
Proof. split; reflexivity. Qed.

(** The standalone client on channel 7: refused, nothing written. *)
Example cli_channel_7 :
  Cli.send_command (adapter := Script.scripted Script.healthy)
    Const.OPEN 7 Script.cli0 = (Ok false, Script.cli0).
Proof. reflexivity. Qed.

(** The standalone client falls back on any exception of the write with
    response, and sleeps half a second before it returns. *)
Example cli_fallback :
  trace_of (Cli.send_command (adapter := Script.scripted Script.no_ack)
              Const.OPEN 6) Script.cli0 =
    [EvWriteGattChar Script.remote Const.COMMAND_CHAR_UUID [0xF1; 0x01; 6]
                     (Some true);
     EvWriteGattChar Script.remote Const.COMMAND_CHAR_UUID [0xF1; 0x01; 6]
                     (Some false);
     EvSleep 500].
Proof. reflexivity. Qed.

(** * Further properties *)

(** ** Bounds of [async_send_command] on every adapter *)

Section GeneralFacts.
Context {W : Type} {adapter : Adapter W}.
Import Const Coordinator.

Lemma trace_counts (a : Action) (ch n : Z) (s : LevolorBLECoordinator W) :
  exists runs,
    retry_runs a ch (Z.to_nat n) runs (fst (async_send_command a ch n s)) /\
    lookups (trace_of (async_send_command a ch n) s) = length runs /\
    cooldowns (trace_of (async_send_command a ch n) s)
      = Nat.pred (length runs).
Proof.
  destruct (async_send_command_spec a ch n s) as (runs & Htr & Hruns).
  exists runs. split; [done|].
  pose proof (retry_runs_are_attempts _ _ _ _ _ Hruns) as Hatts.
  rewrite Htr. unfold lookups, cooldowns.
  cbn [List.filter is_lookup is_cooldown]. rewrite !List.filter_app.
  cbn [List.filter is_lookup is_cooldown]. rewrite !app_nil_r.
  fold (lookups (join_cooldown (map snd runs))).
  fold (cooldowns (join_cooldown (map snd runs))).
  by rewrite (lookups_join a ch), (cooldowns_join a ch).
Qed.

(** Whatever the adapter does, [async_send_command] makes at most
    [retry_count] attempts, sleeps one second exactly between
    consecutive attempts (one sleep fewer than attempts), makes at least
    one attempt when [retry_count] is positive, and returns [False] only
    after all [retry_count] attempts. *)
Theorem attempts_bounded (action : Action) (channel retry_count : Z)
    (s : LevolorBLECoordinator W) :
  (lookups (trace_of (async_send_command action channel retry_count) s)
     <= Z.to_nat retry_count)%nat /\
  cooldowns (trace_of (async_send_command action channel retry_count) s)
    = Nat.pred
        (lookups (trace_of (async_send_command action channel retry_count) s))
  /\
  (0 < retry_count ->
   (1 <= lookups (trace_of (async_send_command action channel retry_count) s)
   )%nat) /\
  (fst (async_send_command action channel retry_count s) = Ok false ->
   lookups (trace_of (async_send_command action channel retry_count) s)
     = Z.to_nat retry_count).
Proof.
  destruct (trace_counts action channel retry_count s)
    as (runs & Hruns & -> & ->).
  remember (fst (async_send_command action channel retry_count s)) as r.
  inversion Hruns; subst.
  - repeat split; try done; lia.
  - rewrite length_app. cbn. repeat split; try lia. discriminate.
  - rewrite length_app. cbn. repeat split; try lia. discriminate.
Qed.

Lemma in_order_no_lock (least : nat) (tr : list event) :
  in_order_from least tr = true -> List.filter is_lock tr = [].
Proof.
  revert least. induction tr as [|ev tr IH]; intros least H; [done|].
  cbn in H. destruct (step_of ev) as [st|] eqn:Hst; [|done].
  apply andb_true_iff in H as [_ H].
  cbn. destruct ev; cbn in *; try done; by eapply IH.
Qed.

Lemma join_no_lock (a : Action) (ch : Z)
    (runs : list (Result bool * list event)) :
  Forall (is_attempt a ch) runs ->
  List.filter is_lock (join_cooldown (map snd runs)) = [].
Proof.
  induction 1 as [|[r tr] runs Hrun Hall IH]; [done|].
  apply is_attempt_spec in Hrun as (Hord & _).
  apply in_order_no_lock in Hord.
  destruct runs as [|run runs]; [by cbn|].
  cbn [map snd] in *. rewrite join_cooldown_cons by done.
  rewrite List.filter_app, Hord. cbn. exact IH.
Qed.

(** The lock is taken first and released last on every way out of
    [async_send_command], the exceptional ones included, exactly once
    each: every other call is made while it is held. *)
Theorem lock_released_on_every_path (action : Action)
    (channel retry_count : Z) (s : LevolorBLECoordinator W) :
  exists held,
    trace_of (async_send_command action channel retry_count) s =
      EvLockAcquire :: held ++ [EvLockRelease] /\
    List.filter is_lock held = [].
Proof.
  destruct (async_send_command_spec action channel retry_count s)
    as (runs & Htr & Hruns).
  exists (join_cooldown (map snd runs)). split; [done|].
  apply (join_no_lock action channel).
  by eapply retry_runs_are_attempts.
Qed.

Lemma command_bytes_inv (a : Action) (ch : Z) (cmd : bytes) :
  command_bytes a ch = Ok cmd ->
  cmd = [0xF1; Action_value a; ch] /\ 0 <= ch <= 255.
Proof.
  unfold command_bytes, bytes_of. intros H.
  destruct (forallb _ _) eqn:Hf; [|done]. simplify_eq. split; [done|].
  cbn [forallb] in Hf.
  apply andb_true_iff in Hf as [_ Hf].
  apply andb_true_iff in Hf as [_ Hf].
  apply andb_true_iff in Hf as [Hf _].
  apply andb_true_iff in Hf as [H0 H1].
  apply Z.leb_le in H0. apply Z.ltb_lt in H1. lia.
Qed.

(** A channel that does not fit a byte, [bytes] raising [ValueError] on
    it: no command frame is ever written, on no attempt, and the call
    never returns [True]. *)
Theorem unencodable_channel (action : Action) (channel retry_count : Z)
    (s : LevolorBLECoordinator W) :
  ~ 0 <= channel <= 255 ->
  command_bytes action channel = Raise ValueError /\
  command_writes (trace_of (async_send_command action channel retry_count) s)
    = [] /\
  fst (async_send_command action channel retry_count s) <> Ok true.
Proof.
  intros Hch.
  assert (Hno : forall cmd, command_bytes action channel <> Ok cmd).
  { intros cmd Hc. apply command_bytes_inv in Hc as [_ ?]. lia. }
  split; [|split].
  - destruct (command_bytes action channel) as [cmd|e] eqn:Hc.
    + by destruct (Hno cmd).
    + unfold command_bytes, bytes_of in Hc. by case_match.
  - pose proof (async_send_command_frames action channel retry_count s)
      as Hall.
    destruct (command_writes _) as [|w ws]; [done|].
    apply Forall_cons in Hall as [Hw _]. by destruct (Hno _ Hw).
  - intros Hok.
    destruct (async_send_command_spec action channel retry_count s)
      as (runs & _ & Hruns).
    rewrite Hok in Hruns.
    inversion Hruns as [| fails tr Hall Hlen Hatt Heq |]; subst.
    destruct Hatt as (s0 & Hr & Htr). cbn [fst snd] in Hr.
    destruct (_send_command_once action channel s0) as [r0 s1] eqn:Hrun.
    cbn in Hr. subst r0.
    destruct (attempt_spec _ _ _ _ _ Hrun)
      as (tr0 & _ & _ & _ & _ & _ & _ & Hdone).
    destruct (Hdone eq_refl) as (_ & _ & cmd & _ & Hc & _).
    by destruct (Hno cmd).
Qed.

End GeneralFacts.

Lemma attempts_bounded_witness :
  lookups (trace_of (Coordinator.async_send_command
                       (adapter := Script.scripted Script.no_write)
                       Const.STOP 3 2) Script.coordinator0) = 2%nat.
Proof.
  apply (attempts_bounded (adapter := Script.scripted Script.no_write)
           Const.STOP 3 2 Script.coordinator0).
  reflexivity.
Defined.

Lemma unencodable_channel_witness :
  command_bytes Const.OPEN 300 = Raise ValueError /\
  command_writes
    (trace_of (Coordinator.async_send_command
                 (adapter := Script.scripted Script.healthy)
                 Const.OPEN 300 3) Script.coordinator0) = [] /\
  fst (Coordinator.async_send_command
         (adapter := Script.scripted Script.healthy)
         Const.OPEN 300 3 Script.coordinator0) <> Ok true.
Proof.
  apply (unencodable_channel (adapter := Script.scripted Script.healthy)
           Const.OPEN 300 3 Script.coordinator0).
  lia.
Defined.

(** ** What an attempt writes, and the connection it opens *)

Section WriteFacts.
Context {W : Type} {adapter : Adapter W}.
Import Const Coordinator.

Arguments command_bytes : simpl never.

Lemma gatt_writes_app (tr1 tr2 : list event) :
  gatt_writes (tr1 ++ tr2) = gatt_writes tr1 ++ gatt_writes tr2.
Proof.
  induction tr1 as [|ev tr1 IH]; [done|].
  destruct ev; cbn; by rewrite ?IH.
Qed.

Lemma deliver_gatt_writes (d : BLEDevice) (a : Action) (ch : Z)
    (s s' : LevolorBLECoordinator W) (r : Result bool) (tr : list event) :
  with_BleakClient d (send_on a ch) s = (r, s') ->
  log (hass s') = log (hass s) ++ tr ->
  Forall (protocol_write a ch) (gatt_writes tr).
Proof.
  destruct s as [[w l] addr]. intros H Hlog.
  unfold send_on in H. unfold_py. cbn in H.
  case_split.
  all: try (rewrite <- ?app_assoc in Hlog; apply app_inv_head in Hlog;
            subst tr).
  all: cbn; repeat (apply Forall_cons; split); try (by constructor).
  all: first [by left
             |right;
              match goal with
              | Hc : command_bytes _ _ = Ok _ |- _ =>
                  apply command_bytes_inv in Hc as [-> _]
              end; by eexists].
Qed.

Lemma attempt_gatt_writes (a : Action) (ch : Z)
    (s : LevolorBLECoordinator W) :
  Forall (protocol_write a ch)
         (gatt_writes (trace_of (_send_command_once a ch) s)).
Proof.
  destruct (_send_command_once a ch s) as [r s'] eqn:Hrun.
  destruct (attempt_spec _ _ _ _ _ Hrun) as (tr & Hlog & _).
  rewrite (trace_of_intro _ _ tr) by by rewrite Hrun.
  destruct s as [[w l] addr].
  unfold _send_command_once, _find_device_by_name, device_from_address,
    discovered_service_info, record, bind, get, ret, raise, modify in Hrun.
  cbn in Hrun.
  destruct (async_ble_device_from_address w addr) as [d|] eqn:Hd.
  - destruct (deliver_spec _ _ _ _ _ _ Hrun) as (tr' & Hlog' & _).
    pose proof (deliver_gatt_writes _ _ _ _ _ _ _ Hrun Hlog') as Hw.
    cbn in Hlog, Hlog'. rewrite Hlog', <- app_assoc in Hlog.
    apply app_inv_head in Hlog. subst tr. exact Hw.
  - rewrite find_in_spec in Hrun. cbn in Hrun.
    destruct (List.find name_matches (async_discovered_service_info w))
      as [disc|] eqn:Hf.
    + destruct (deliver_spec _ _ _ _ _ _ Hrun) as (tr' & Hlog' & _).
      pose proof (deliver_gatt_writes _ _ _ _ _ _ _ Hrun Hlog') as Hw.
      cbn in Hlog, Hlog'. rewrite Hlog', <- !app_assoc in Hlog.
      apply app_inv_head in Hlog. subst tr. exact Hw.
    + simplify_eq. cbn in Hlog. rewrite <- app_assoc in Hlog.
      apply app_inv_head in Hlog. subst tr. constructor.
Qed.

Lemma join_gatt_writes (a : Action) (ch : Z)
    (runs : list (Result bool * list event)) :
  Forall (is_attempt a ch) runs ->
  Forall (protocol_write a ch)
         (gatt_writes (join_cooldown (map snd runs))).
Proof.
  induction 1 as [|[r tr] runs Hrun Hall IH]; [constructor|].
  assert (Htr : Forall (protocol_write a ch) (gatt_writes tr)).
  { destruct Hrun as (s & _ & Htr). cbn [snd] in Htr. rewrite <- Htr.
    apply attempt_gatt_writes. }
  destruct runs as [|run runs]; [done|].
  cbn [map snd] in *. rewrite join_cooldown_cons by done.
  rewrite gatt_writes_app. apply Forall_app. split; [done|exact IH].
Qed.

(** Whatever the adapter does and however the call ends, the only
    characteristic writes [async_send_command] makes are the init
    payload 0x88 0xFA to the init characteristic and the frame
    0xF1, action, channel to the command characteristic: no other
    characteristic, no other payload. *)
Theorem only_protocol_writes (action : Action) (channel retry_count : Z)
    (s : LevolorBLECoordinator W) :
  Forall (protocol_write action channel)
         (gatt_writes
            (trace_of (async_send_command action channel retry_count) s)).
Proof.
  destruct (async_send_command_spec action channel retry_count s)
    as (runs & -> & Hruns).
  apply retry_runs_are_attempts in Hruns.
  cbn [gatt_writes]. rewrite gatt_writes_app. cbn. rewrite app_nil_r.
  by apply join_gatt_writes.
Qed.

(** The connected part: a connection that fails ends it at once; one
    that succeeds is closed as the last call, and neither opened nor
    closed in between. *)
Lemma deliver_closed (d : BLEDevice) (a : Action) (ch : Z)
    (s : LevolorBLECoordinator W) :
  (forall e,
     fst (client_connect d (world (hass s))) = Some e ->
     fst (with_BleakClient d (send_on a ch) s) = Raise e /\
     log (hass (snd (with_BleakClient d (send_on a ch) s)))
       = log (hass s) ++ [EvConnect d]) /\
  (fst (client_connect d (world (hass s))) = None ->
   exists mid,
     log (hass (snd (with_BleakClient d (send_on a ch) s)))
       = log (hass s) ++ EvConnect d :: mid ++ [EvDisconnect d] /\
     List.filter is_connect mid = [] /\
     List.filter is_disconnect mid = []).
Proof.
  destruct (with_BleakClient d (send_on a ch) s) as [r s'] eqn:H.
  destruct s as [[w l] addr].
  unfold send_on in H. unfold_py. cbn in H. cbn [hass world log fst snd].
  destruct (client_connect d w) as [[e0|] w1] eqn:Hc; cbn [fst].
  - cbn in H. simplify_eq. split; [|discriminate].
    intros e He. by simplify_eq.
  - split; [discriminate|]. intros _. cbn in H. case_split.
    all: rewrite <- ?app_assoc; cbn.
    all: match goal with
         | |- exists mid, ?l ++ EvConnect ?d :: ?rest = _ /\ _ =>
             exists (removelast rest); cbn; by repeat split
         end.
Qed.

(** Every connection an attempt opens is closed, exactly once and as
    the attempt's last call, whatever fails after the connect; when the
    connect itself raises, the attempt stops there, with no write and
    no disconnect, and raises that exception. *)
Theorem connection_always_closed (action : Action) (channel : Z)
    (s : LevolorBLECoordinator W) (d : BLEDevice) :
  resolves s d ->
  (forall e,
     fst (client_connect d (world (hass s))) = Some e ->
     fst (_send_command_once action channel s) = Raise e /\
     exists pre,
       trace_of (_send_command_once action channel) s
         = pre ++ [EvConnect d] /\
       gatt_writes pre = [] /\
       List.filter is_connect pre = [] /\
       List.filter is_disconnect pre = []) /\
  (fst (client_connect d (world (hass s))) = None ->
   exists pre mid,
     trace_of (_send_command_once action channel) s
       = pre ++ EvConnect d :: mid ++ [EvDisconnect d] /\
     List.filter is_connect (pre ++ mid) = [] /\
     List.filter is_disconnect (pre ++ mid) = []).
Proof.
  intros Hres. destruct s as [[w l] addr]. unfold resolves in Hres.
  cbn [hass world address] in *.
  assert (Hrun : exists pre,
    _send_command_once action channel (mkCoordinator (mkHost w l) addr) =
      with_BleakClient d (send_on action channel)
        (mkCoordinator (mkHost w (l ++ pre))
           (address (snd (_send_command_once action channel
                            (mkCoordinator (mkHost w l) addr))))) /\
    gatt_writes pre = [] /\
    List.filter is_connect pre = [] /\ List.filter is_disconnect pre = []).
  { destruct Hres as [Hd|(Hd & disc & Hf & ->)].
    - exists [EvDeviceFromAddress addr]. split; [|done].
      pose proof (deliver_head d action channel
        (mkCoordinator (mkHost w (l ++ [EvDeviceFromAddress addr])) addr))
        as [Haddr _].
      unfold _send_command_once, _find_device_by_name, device_from_address,
        discovered_service_info, record, bind, get, ret, raise, modify.
      cbn. rewrite Hd. cbn in Haddr |- *. by rewrite Haddr.
    - exists [EvDeviceFromAddress addr; EvDiscoveredServiceInfo].
      split; [|done].
      pose proof (deliver_head (si_device disc) action channel
        (mkCoordinator
           (mkHost w (l ++ [EvDeviceFromAddress addr;
                            EvDiscoveredServiceInfo]))
           (si_address disc))) as [Haddr _].
      unfold _send_command_once, _find_device_by_name, device_from_address,
        discovered_service_info, record, bind, get, ret, raise, modify.
      cbn. rewrite Hd. rewrite find_in_spec. cbn. rewrite Hf.
      rewrite <- app_assoc. cbn in Haddr |- *. by rewrite Haddr. }
  destruct Hrun as (pre & Hrun & Hpw & Hpc & Hpd).
  match type of Hrun with
  | _ = with_BleakClient _ _ ?s0 =>
      destruct (deliver_closed d action channel s0) as [Hfail Hok]
  end.
  cbn [hass world log] in Hfail, Hok. rewrite <- Hrun in Hfail, Hok.
  split.
  - intros e He. destruct (Hfail e He) as [Hr Hlog]. split; [done|].
    exists pre. split; [|done].
    apply trace_of_intro. cbn [get_host Coordinator_HasHost hass log].
    by rewrite Hlog, <- app_assoc.
  - intros He. destruct (Hok He) as (mid & Hlog & Hmc & Hmd).
    exists pre, mid. rewrite !List.filter_app, Hpc, Hpd, Hmc, Hmd.
    split; [|done].
    apply trace_of_intro. cbn [get_host Coordinator_HasHost hass log].
    by rewrite Hlog, <- app_assoc.
Qed.

End WriteFacts.

Lemma connection_always_closed_witness :
  exists pre mid,
    trace_of (Coordinator._send_command_once
                (adapter := Script.scripted Script.no_write) Const.STOP 3)
             Script.coordinator0
      = pre ++ EvConnect Script.remote :: mid ++ [EvDisconnect Script.remote]
    /\ List.filter is_connect (pre ++ mid) = []
    /\ List.filter is_disconnect (pre ++ mid) = [].
Proof.
  apply (connection_always_closed
           (adapter := Script.scripted Script.no_write) Const.STOP 3
           Script.coordinator0 Script.remote).
  - left. reflexivity.
  - reflexivity.
Defined.

(** ** The stored address *)

Section AddressFacts.
Context {W : Type} {adapter : Adapter W}.
Import Const Coordinator.

Lemma in_order_no_discovery (least : nat) (tr : list event) :
  (1 <= least)%nat -> in_order_from least tr = true ->
  List.filter is_discovery tr = [].
Proof.
  revert least. induction tr as [|ev tr IH]; intros k Hk Hord; [done|].
  cbn in Hord. destruct (step_of ev) as [st|] eqn:Hst; [|done].
  apply andb_true_iff in Hord as [Hle Hord].
  apply Nat.leb_le in Hle.
  assert (Hev : is_discovery ev = false).
  { destruct ev; try done. cbn in Hst. simplify_eq. cbn in Hle. lia. }
  cbn. rewrite Hev. apply (IH (rank st)); [lia|done].
Qed.

(** What one attempt does to the stored address and to the world of
    the lookups. *)
Lemma attempt_address (a : Action) (ch : Z) (s : LevolorBLECoordinator W) :
  (forall d,
     async_ble_device_from_address (world (hass s)) (address s) = Some d ->
     address (snd (_send_command_once a ch s)) = address s /\
     List.filter is_discovery (trace_of (_send_command_once a ch) s) = []) /\
  (address (snd (_send_command_once a ch s)) = address s \/
   exists discovery,
     In discovery (async_discovered_service_info (world (hass s))) /\
     name_matches discovery = true /\
     address (snd (_send_command_once a ch s)) = si_address discovery).
Proof.
  destruct s as [[w l] addr]. cbn [hass world address].
  destruct (async_ble_device_from_address w addr) as [d|] eqn:Hd.
  - assert (Hrun : _send_command_once a ch (mkCoordinator (mkHost w l) addr)
                   = with_BleakClient d (send_on a ch)
                       (mkCoordinator
                          (mkHost w (l ++ [EvDeviceFromAddress addr])) addr)).
    { unfold _send_command_once, _find_device_by_name, device_from_address,
        discovered_service_info, record, bind, get, ret, raise, modify.
      cbn. by rewrite Hd. }
    destruct (with_BleakClient d (send_on a ch) _) as [r s'] eqn:Hdel.
    destruct (deliver_spec _ _ _ _ _ _ Hdel)
      as (tr & Hlog & Haddr & Hord & _).
    cbn in Hlog, Haddr. rewrite Hrun. cbn [snd].
    split; [|by left]. intros d' _. split; [done|].
    rewrite (trace_of_intro _ _ (EvDeviceFromAddress addr :: tr)).
    + cbn. by apply (in_order_no_discovery 1).
    + rewrite Hrun. cbn. by rewrite Hlog, <- app_assoc.
  - split; [discriminate|].
    destruct (List.find name_matches (async_discovered_service_info w))
      as [disc|] eqn:Hf.
    + right. exists disc. apply find_some in Hf as Hin.
      destruct Hin as [Hin Hm]. split; [done|]. split; [done|].
      assert (Hrun : _send_command_once a ch
                       (mkCoordinator (mkHost w l) addr)
                     = with_BleakClient (si_device disc) (send_on a ch)
                         (mkCoordinator
                            (mkHost w (l ++ [EvDeviceFromAddress addr;
                                             EvDiscoveredServiceInfo]))
                            (si_address disc))).
      { unfold _send_command_once, _find_device_by_name, device_from_address,
          discovered_service_info, record, bind, get, ret, raise, modify.
        cbn. rewrite Hd, find_in_spec. cbn. rewrite Hf.
        by rewrite <- app_assoc. }
      rewrite Hrun. by destruct (deliver_head (si_device disc) a ch
        (mkCoordinator
           (mkHost w (l ++ [EvDeviceFromAddress addr;
                            EvDiscoveredServiceInfo]))
           (si_address disc))) as [-> _].
    + left. by rewrite attempt_unresolved.
Qed.

Lemma address_from_step (original : string) (a : Action) (ch : Z)
    (s : LevolorBLECoordinator W) :
  address_from (W := W) original (address s) ->
  address_from (W := W) original (address (snd (_send_command_once a ch s))).
Proof.
  intros H. destruct (attempt_address a ch s) as [_ [->|Hd]]; [done|].
  destruct Hd as (disc & Hin & Hm & ->). right. by exists (world (hass s)), disc.
Qed.

Lemma retry_loop_address (original : string) (a : Action) (ch n : Z)
    (attempts : list Z) :
  forall s : LevolorBLECoordinator W,
    address_from (W := W) original (address s) ->
    address_from (W := W) original
      (address (snd (retry_loop a ch n attempts s))).
Proof.
  induction attempts as [|k rest IH]; intros s Hs; [done|].
  cbn [retry_loop]. unfold bind at 1, try_.
  pose proof (address_from_step original a ch s Hs) as Hstep.
  destruct (_send_command_once a ch s) as [[[|]|e] s1]; cbn [snd] in *.
  - done.
  - by apply IH.
  - destruct (is_BleakError e || is_TimeoutError e); [|done].
    unfold bind at 1. destruct (k <? n - 1); cbn.
    + apply IH. by destruct s1 as [[w1 l1] a1].
    + by apply IH.
Qed.

(** The stored address changes only by rediscovery: after
    [async_send_command], however it ends, the address is the one the
    call started with or the address of a discovered service info whose
    name contains "Levolor".  An attempt whose address lookup finds the
    device keeps the address and does not ask for the discovered
    devices. *)
Theorem address_changes_only_by_rediscovery (action : Action)
    (channel retry_count : Z) (s : LevolorBLECoordinator W) :
  address_from (W := W) (address s)
    (address (snd (async_send_command action channel retry_count s))) /\
  (forall d,
     async_ble_device_from_address (world (hass s)) (address s) = Some d ->
     address (snd (_send_command_once action channel s)) = address s /\
     List.filter is_discovery
       (trace_of (_send_command_once action channel) s) = []).
Proof.
  split; [|apply attempt_address].
  rewrite async_send_command_unfold.
  match goal with
  | |- context [retry_loop ?a ?c ?n ?l ?s0] =>
      pose proof (retry_loop_address (address s) a c n l s0) as H;
      destruct (retry_loop a c n l s0) as [r s1]
  end.
  cbn [snd address] in *. apply H. by left.
Qed.

End AddressFacts.

Lemma address_changes_only_by_rediscovery_witness :
  Coordinator.address
    (snd (Coordinator._send_command_once
            (adapter := Script.scripted Script.flaky) Const.OPEN 1
            Script.coordinator0)) = "AA:BB:CC:DD:EE:FF"%string /\
  List.filter is_discovery
    (trace_of (Coordinator._send_command_once
                 (adapter := Script.scripted Script.flaky) Const.OPEN 1)
              Script.coordinator0) = [].
Proof.
  apply (proj2 (address_changes_only_by_rediscovery
                  (adapter := Script.scripted Script.flaky)
                  Const.OPEN 1 3 Script.coordinator0) Script.remote).
  reflexivity.
Defined.

(** ** Failures of the write with response other than [BleakError] *)

Section OtherWriteErrors.
Context {W : Type} {adapter : Adapter W}.
Import Const Coordinator.

Arguments command_bytes : simpl never.

Ltac told H w :=
  let E := fresh "E" in
  let X := fresh "X" in
  match type of (H w) with
  | fst ?call = _ =>
      destruct call as [? ?] eqn:E; pose proof (H w) as X;
      rewrite E in X; cbn [fst] in X; subst
  end.

Ltac told_all Hconn Harm Hack Hdisc :=
  repeat (cbn;
    match goal with
    | |- context [client_connect ?d ?w0] => told Hconn w0
    | |- context [write_gatt_char ?d INIT_CHAR_UUID _ _ ?w0] =>
        told Harm w0
    | |- context [write_gatt_char ?d COMMAND_CHAR_UUID _ (Some true) ?w0] =>
        told Hack w0
    | |- context [client_disconnect ?d ?w0] => told Hdisc w0
    end).

(** The coordinator falls back to the write without response on
    [BleakError] alone.  When the write with response raises anything
    else, a [TimeoutError] for one, the frame is not written a second
    time: the attempt disconnects, without the settle sleep, and raises
    that exception. *)
Theorem no_fallback_on_other_errors (action : Action) (channel : Z)
    (command : bytes) (d : BLEDevice) (e : exn)
    (s : LevolorBLECoordinator W) :
  async_ble_device_from_address (world (hass s)) (address s) = Some d ->
  command_bytes action channel = Ok command ->
  is_BleakError e = false ->
  (forall w, fst (client_connect d w) = None) ->
  (forall w, fst (write_gatt_char d INIT_CHAR_UUID INIT_PAYLOAD None w)
             = None) ->
  (forall w, fst (write_gatt_char d COMMAND_CHAR_UUID command (Some true) w)
             = Some e) ->
  (forall w, fst (client_disconnect d w) = None) ->
  fst (_send_command_once action channel s) = Raise e /\
  trace_of (_send_command_once action channel) s =
    [EvDeviceFromAddress (address s); EvConnect d;
     EvWriteGattChar d INIT_CHAR_UUID [0x88; 0xFA] None;
     EvWriteGattChar d COMMAND_CHAR_UUID command (Some true);
     EvDisconnect d].
Proof.
  intros Hres Hcmd He Hconn Harm Hack Hdisc.
  destruct s as [[w l] addr]. cbn [hass world address] in *.
  assert (Heq : exists w',
    _send_command_once action channel (mkCoordinator (mkHost w l) addr) =
    (Raise e,
     mkCoordinator
       (mkHost w'
          (l ++ [EvDeviceFromAddress addr; EvConnect d;
                 EvWriteGattChar d INIT_CHAR_UUID [0x88; 0xFA] None;
                 EvWriteGattChar d COMMAND_CHAR_UUID command (Some true);
                 EvDisconnect d])) addr)).
  { unfold _send_command_once, send_on. unfold_py. cbn.
    rewrite Hres. cbn. told Hconn w. cbn.
    match goal with
    | |- context [write_gatt_char d INIT_CHAR_UUID _ _ ?w0] =>
        told Harm w0
    end. cbn. rewrite Hcmd. cbn.
    match goal with
    | |- context [write_gatt_char d COMMAND_CHAR_UUID _ (Some true) ?w0] =>
        told Hack w0
    end. cbn. rewrite He.
    told_all Hconn Harm Hack Hdisc.
    eexists. rewrite <- !app_assoc. reflexivity. }
  destruct Heq as [w' Heq].
  rewrite (trace_of_intro _ _
             [EvDeviceFromAddress addr; EvConnect d;
              EvWriteGattChar d INIT_CHAR_UUID [0x88; 0xFA] None;
              EvWriteGattChar d COMMAND_CHAR_UUID command (Some true);
              EvDisconnect d]) by by rewrite Heq.
  by rewrite Heq.
Qed.

End OtherWriteErrors.

Lemma no_fallback_on_other_errors_witness :
  fst (Coordinator._send_command_once
         (adapter := Script.scripted Script2.ack_timeout) Const.OPEN 1
         Script.coordinator0) = Raise TimeoutError /\
  trace_of (Coordinator._send_command_once
              (adapter := Script.scripted Script2.ack_timeout) Const.OPEN 1)
           Script.coordinator0 =
    [EvDeviceFromAddress "AA:BB:CC:DD:EE:FF"; EvConnect Script.remote;
     EvWriteGattChar Script.remote Const.INIT_CHAR_UUID [0x88; 0xFA] None;
     EvWriteGattChar Script.remote Const.COMMAND_CHAR_UUID [0xF1; 0x01; 1]
                     (Some true);
     EvDisconnect Script.remote].
Proof.
  apply (no_fallback_on_other_errors
           (adapter := Script.scripted Script2.ack_timeout)
           Const.OPEN 1 [0xF1; 0x01; 1] Script.remote TimeoutError
           Script.coordinator0).
  - reflexivity.
  - reflexivity.
  - reflexivity.
  - intros w. reflexivity.
  - intros w. reflexivity.
  - intros w. reflexivity.
  - intros w. reflexivity.
Defined.

(** ** [async_test_connection] *)

Section TestConnection.
Context {W : Type} {adapter : Adapter W}.
Import Const Coordinator.

Lemma test_connected_spec (d : BLEDevice) (s s' : LevolorBLECoordinator W)
    (r : Result bool) :
  (r0 <- try_ (with_BleakClient d (fun client =>
                 write client INIT_CHAR_UUID INIT_PAYLOAD None ;;
                 ret true)) ;;
   match r0 with
   | Ok b => ret b
   | Raise err => if is_BleakError err then ret false else raise err
   end)%py s = (r, s') ->
  exists tr,
    log (hass s') = log (hass s) ++ tr /\
    (forall msg, r <> Raise (BleakError msg)) /\
    command_writes tr = [] /\
    List.filter is_sleep tr = [] /\
    List.filter is_lock tr = [] /\
    Forall (fun w => w = (INIT_CHAR_UUID, [0x88; 0xFA], None))
           (gatt_writes tr) /\
    (r = Ok true ->
     tr = [EvConnect d;
           EvWriteGattChar d INIT_CHAR_UUID [0x88; 0xFA] None;
           EvDisconnect d]).
Proof.
  destruct s as [[w l] addr]. intros H.
  unfold_py. cbn in H.
  case_split.
  all: rewrite <- ?app_assoc; cbn.
  all: eexists; split; [reflexivity|]; cbn.
  all: repeat split; try done; try (by repeat constructor).
  all: try (intros msg Hm; simplify_eq; done).
Qed.

Lemma send_unresolved (a : Action) (ch : Z) (s : LevolorBLECoordinator W) :
  unresolved s ->
  fst (async_send_command a ch DEFAULT_RETRY_COUNT s) =
    Raise (HomeAssistantError (not_found_message (address s))).
Proof.
  intros Hun. destruct s as [[w l] addr].
  rewrite async_send_command_unfold.
  destruct (range_positive DEFAULT_RETRY_COUNT) as [rest ->]; [done|].
  cbn [retry_loop]. unfold bind at 1, try_. cbn [hass world log address].
  by rewrite attempt_unresolved.
Qed.

(** [async_test_connection] sends no command: it never writes to the
    command characteristic and writes the init payload at most; it does
    not sleep, and it does not take the coordinator's lock.  A
    [BleakError] never leaves it.  It returns [True] only after
    connect, init write and disconnect, in that order.  When no device
    resolves it returns [False] without connecting, where
    [async_send_command] raises [HomeAssistantError]. *)
Theorem test_connection_sends_nothing (s : LevolorBLECoordinator W) :
  (forall msg, fst (async_test_connection s) <> Raise (BleakError msg)) /\
  command_writes (trace_of async_test_connection s) = [] /\
  Forall (fun w => w = (INIT_CHAR_UUID, [0x88; 0xFA], None))
         (gatt_writes (trace_of async_test_connection s)) /\
  List.filter is_sleep (trace_of async_test_connection s) = [] /\
  List.filter is_lock (trace_of async_test_connection s) = [] /\
  (fst (async_test_connection s) = Ok true ->
   exists (discovered : bool) d,
     trace_of async_test_connection s =
       [EvDeviceFromAddress (address s)] ++
       (if discovered then [EvDiscoveredServiceInfo] else []) ++
       [EvConnect d; EvWriteGattChar d INIT_CHAR_UUID [0x88; 0xFA] None;
        EvDisconnect d]) /\
  (unresolved s ->
   fst (async_test_connection s) = Ok false /\
   trace_of async_test_connection s =
     [EvDeviceFromAddress (address s); EvDiscoveredServiceInfo] /\
   forall action channel,
     fst (async_send_command action channel DEFAULT_RETRY_COUNT s) =
       Raise (HomeAssistantError (not_found_message (address s)))).
Proof.
  destruct (async_test_connection s) as [r s'] eqn:Hrun.
  assert (Hspec : exists tr,
    log (hass s') = log (hass s) ++ tr /\
    (forall msg, r <> Raise (BleakError msg)) /\
    command_writes tr = [] /\
    Forall (fun w => w = (INIT_CHAR_UUID, [0x88; 0xFA], None))
           (gatt_writes tr) /\
    List.filter is_sleep tr = [] /\
    List.filter is_lock tr = [] /\
    (r = Ok true ->
     exists (discovered : bool) d,
       tr = [EvDeviceFromAddress (address s)] ++
            (if discovered then [EvDiscoveredServiceInfo] else []) ++
            [EvConnect d; EvWriteGattChar d INIT_CHAR_UUID [0x88; 0xFA] None;
             EvDisconnect d]) /\
    (unresolved s ->
     r = Ok false /\
     tr = [EvDeviceFromAddress (address s); EvDiscoveredServiceInfo])).
  { destruct s as [[w l] addr].
    unfold unresolved. cbn [hass world address log].
    unfold async_test_connection, _find_device_by_name, device_from_address,
      discovered_service_info, record in Hrun.
    unfold bind at 1 2 3, get, modify in Hrun. cbn in Hrun.
    destruct (async_ble_device_from_address w addr) as [d|] eqn:Hd.
    - apply test_connected_spec in Hrun
        as (tr & Hlog & Hb & Hcw & Hsl & Hlk & Hgw & Hok).
      cbn in Hlog. exists (EvDeviceFromAddress addr :: tr).
      rewrite Hlog, <- app_assoc. cbn. rewrite Hcw, Hsl, Hlk.
      do 6 (split; [done|]). split.
      + intros Hr. exists false, d. by rewrite (Hok Hr).
      + intros [? _]. done.
    - unfold bind at 1 2 3 4, ret at 1 in Hrun. cbn in Hrun.
      rewrite find_in_spec in Hrun.
      destruct (List.find name_matches (async_discovered_service_info w))
        as [disc|] eqn:Hf; cbn in Hrun.
      + apply test_connected_spec in Hrun
          as (tr & Hlog & Hb & Hcw & Hsl & Hlk & Hgw & Hok).
        cbn in Hlog.
        exists (EvDeviceFromAddress addr :: EvDiscoveredServiceInfo :: tr).
        rewrite Hlog, <- !app_assoc. cbn. rewrite Hcw, Hsl, Hlk.
        do 6 (split; [done|]). split.
        * intros Hr. exists true, (si_device disc). by rewrite (Hok Hr).
        * intros [_ ?]. done.
      + unfold ret in Hrun. simplify_eq.
        exists [EvDeviceFromAddress addr; EvDiscoveredServiceInfo].
        rewrite <- app_assoc. cbn.
        split; [done|]. split; [done|]. split; [done|].
        split; [by constructor|]. by repeat split. }
  destruct Hspec as (tr & Hlog & Hb & Hcw & Hgw & Hsl & Hlk & Hok & Hun).
  assert (Htr : trace_of async_test_connection s = tr).
  { apply trace_of_intro. by rewrite Hrun. }
  rewrite Htr. cbn [fst].
  do 6 (split; [done|]). intros Hs.
  destruct (Hun Hs) as [-> ->]. do 2 (split; [done|]).
  intros action channel. by apply send_unresolved.
Qed.

End TestConnection.

Lemma test_connection_sends_nothing_witness :
  fst (Coordinator.async_test_connection
         (adapter := Script.scripted Script.absent) Script.coordinator0)
    = Ok false /\
  trace_of (Coordinator.async_test_connection
              (adapter := Script.scripted Script.absent))
           Script.coordinator0 =
    [EvDeviceFromAddress "AA:BB:CC:DD:EE:FF"; EvDiscoveredServiceInfo] /\
  forall action channel,
    fst (Coordinator.async_send_command
           (adapter := Script.scripted Script.absent) action channel
           Const.DEFAULT_RETRY_COUNT Script.coordinator0) =
      Raise (HomeAssistantError
               (Coordinator.not_found_message "AA:BB:CC:DD:EE:FF")).
Proof.
  apply (test_connection_sends_nothing
           (adapter := Script.scripted Script.absent) Script.coordinator0).
  split; reflexivity.
Defined.

(** ** The state of the cover entity *)

Section CoverState.
Context {W : Type} {adapter : Adapter W}.
Import Const Coordinator Cover.

Arguments async_send_command : simpl never.

Ltac run_cover :=
  unfold async_open_cover, async_close_cover, async_stop_cover,
    coordinator_send, assign, async_write_ha_state, zoom, bind, modify, get,
    ret; cbn.

(** Opening and closing, when the coordinator answers: the entity
    first hands Home Assistant a state that is opening (closing) and not
    the opposite; on [True] it ends open at 100 (closed at 0) and
    available; on [False] it ends unavailable with its position and
    [is_closed] as they were; either way neither moving flag is left set
    and the final state is handed over. *)
Theorem open_close_outcome (s : LevolorBlindCover W) (success : bool) :
  (fst (async_send_command OPEN (_channel s) DEFAULT_RETRY_COUNT
          (_coordinator s)) = Ok success ->
   fst (async_open_cover s) = Ok tt /\
   attrs (snd (async_open_cover s)) =
     (if success
      then mkAttrs (Some 100) (Some false) false false true
      else mkAttrs (_attr_current_cover_position (attrs s))
                   (_attr_is_closed (attrs s)) false false false) /\
   written_states (snd (async_open_cover s)) =
     written_states s ++
     [mkAttrs (_attr_current_cover_position (attrs s))
              (_attr_is_closed (attrs s)) true false
              (_attr_available (attrs s));
      attrs (snd (async_open_cover s))]) /\
  (fst (async_send_command CLOSE (_channel s) DEFAULT_RETRY_COUNT
          (_coordinator s)) = Ok success ->
   fst (async_close_cover s) = Ok tt /\
   attrs (snd (async_close_cover s)) =
     (if success
      then mkAttrs (Some 0) (Some true) false false true
      else mkAttrs (_attr_current_cover_position (attrs s))
                   (_attr_is_closed (attrs s)) false false false) /\
   written_states (snd (async_close_cover s)) =
     written_states s ++
     [mkAttrs (_attr_current_cover_position (attrs s))
              (_attr_is_closed (attrs s)) false true
              (_attr_available (attrs s));
      attrs (snd (async_close_cover s))]).
Proof.
  split; intros H; run_cover.
  - destruct (async_send_command OPEN _ _ _) as [r c]. cbn in H. subst r.
    destruct success; cbn; by rewrite <- app_assoc.
  - destruct (async_send_command CLOSE _ _ _) as [r c]. cbn in H. subst r.
    destruct success; cbn; by rewrite <- app_assoc.
Qed.

(** When the coordinator raises, as it does when no device resolves,
    the exception leaves [async_open_cover] ([async_close_cover]) before
    the flag is reset: the entity stays opening (closing), its
    availability is not touched, and the last state Home Assistant was
    handed is the transitional one. *)
Theorem cover_stuck_on_exception (s : LevolorBlindCover W) (e : exn) :
  (fst (async_send_command OPEN (_channel s) DEFAULT_RETRY_COUNT
          (_coordinator s)) = Raise e ->
   fst (async_open_cover s) = Raise e /\
   attrs (snd (async_open_cover s)) =
     mkAttrs (_attr_current_cover_position (attrs s))
             (_attr_is_closed (attrs s)) true false
             (_attr_available (attrs s)) /\
   written_states (snd (async_open_cover s)) =
     written_states s ++ [attrs (snd (async_open_cover s))]) /\
  (fst (async_send_command CLOSE (_channel s) DEFAULT_RETRY_COUNT
          (_coordinator s)) = Raise e ->
   fst (async_close_cover s) = Raise e /\
   attrs (snd (async_close_cover s)) =
     mkAttrs (_attr_current_cover_position (attrs s))
             (_attr_is_closed (attrs s)) false true
             (_attr_available (attrs s)) /\
   written_states (snd (async_close_cover s)) =
     written_states s ++ [attrs (snd (async_close_cover s))]).
Proof.
  split; intros H; run_cover.
  - destruct (async_send_command OPEN _ _ _) as [r c]. cbn in H. by subst r.
  - destruct (async_send_command CLOSE _ _ _) as [r c]. cbn in H. by subst r.
Qed.

(** Stopping sends STOP on the entity's channel, clears both moving
    flags, makes the entity available exactly when the coordinator
    returned [True], hands over one state, and leaves the position and
    [is_closed] as they were. *)
Theorem stop_cover_outcome (s : LevolorBlindCover W) (success : bool) :
  fst (async_send_command STOP (_channel s) DEFAULT_RETRY_COUNT
         (_coordinator s)) = Ok success ->
  fst (async_stop_cover s) = Ok tt /\
  _coordinator (snd (async_stop_cover s)) =
    snd (async_send_command STOP (_channel s) DEFAULT_RETRY_COUNT
           (_coordinator s)) /\
  attrs (snd (async_stop_cover s)) =
    mkAttrs (_attr_current_cover_position (attrs s))
            (_attr_is_closed (attrs s)) false false success /\
  written_states (snd (async_stop_cover s)) =
    written_states s ++ [attrs (snd (async_stop_cover s))].
Proof.
  intros H. run_cover.
  destruct (async_send_command STOP _ _ _) as [r c]. cbn in H. subst r.
  by destruct success.
Qed.

(** [is_closed] and [current_cover_position] stay in step: if the
    entity starts with both unknown, or with [is_closed] true exactly at
    position 0, then so it is after opening, closing, stopping, setting
    a position, or restoring a last state, however the call ends. *)
Theorem position_stays_consistent (s : LevolorBlindCover W)
    (kwargs : gmap string Z) (last_state : option (gmap string Z)) :
  position_consistent (attrs s) ->
  position_consistent (attrs (snd (async_open_cover s))) /\
  position_consistent (attrs (snd (async_close_cover s))) /\
  position_consistent (attrs (snd (async_stop_cover s))) /\
  position_consistent (attrs (snd (async_set_cover_position kwargs s))) /\
  position_consistent (attrs (snd (async_added_to_hass last_state s))).
Proof.
  intros H. unfold position_consistent in *.
  assert (Ho : position_consistent (attrs (snd (async_open_cover s)))).
  { unfold position_consistent. run_cover.
    by destruct (async_send_command OPEN _ _ _) as [[[|]|e] c]. }
  assert (Hc : position_consistent (attrs (snd (async_close_cover s)))).
  { unfold position_consistent. run_cover.
    by destruct (async_send_command CLOSE _ _ _) as [[[|]|e] c]. }
  unfold position_consistent in Ho, Hc.
  split; [done|]. split; [done|]. split; [|split].
  - run_cover. by destruct (async_send_command STOP _ _ _) as [[[|]|e] c].
  - unfold async_set_cover_position. cbn zeta.
    by destruct (50 <=? default 50 (kwargs !! ATTR_POSITION)).
  - unfold async_added_to_hass.
    destruct last_state as [attributes|]; [|done].
    destruct (attributes !! ATTR_POSITION) as [p|]; [|done].
    unfold assign, bind, modify. cbn. done.
Qed.

End CoverState.

Lemma open_close_outcome_witness :
  Cover.attrs
    (snd (Cover.async_open_cover (adapter := Script.scripted Script.healthy)
            (Script.cover0 2))) =
    Cover.mkAttrs (Some 100) (Some false) false false true.
Proof.
  apply (proj1 (open_close_outcome
                  (adapter := Script.scripted Script.healthy)
                  (Script.cover0 2) true)).
  reflexivity.
Defined.

Lemma cover_stuck_on_exception_witness :
  fst (Cover.async_open_cover (adapter := Script.scripted Script.absent)
         (Script.cover0 2)) =
    Raise (HomeAssistantError
             (Coordinator.not_found_message "AA:BB:CC:DD:EE:FF")) /\
  Cover.attrs
    (snd (Cover.async_open_cover (adapter := Script.scripted Script.absent)
            (Script.cover0 2))) =
    Cover.mkAttrs None None true false true /\
  Cover.written_states
    (snd (Cover.async_open_cover (adapter := Script.scripted Script.absent)
            (Script.cover0 2))) =
    [] ++ [Cover.attrs
             (snd (Cover.async_open_cover
                     (adapter := Script.scripted Script.absent)
                     (Script.cover0 2)))].
Proof.
  apply (proj1 (cover_stuck_on_exception
                  (adapter := Script.scripted Script.absent)
                  (Script.cover0 2)
                  (HomeAssistantError
                     (Coordinator.not_found_message "AA:BB:CC:DD:EE:FF")))).
  reflexivity.
Defined.

Lemma stop_cover_outcome_witness :
  Cover.attrs
    (snd (Cover.async_stop_cover
            (adapter := Script.scripted Script.unconnectable)
            (Script.cover0 4))) =
    Cover.mkAttrs None None false false false.
Proof.
  apply (stop_cover_outcome (adapter := Script.scripted Script.unconnectable)
           (Script.cover0 4) false).
  reflexivity.
Defined.

Lemma position_stays_consistent_witness :
  position_consistent
    (Cover.attrs
       (snd (Cover.async_close_cover
               (adapter := Script.scripted Script.healthy)
               (Script.cover0 1)))).
Proof.
  apply (position_stays_consistent
           (adapter := Script.scripted Script.healthy) (Script.cover0 1)
           ∅ None).
  exact I.
Defined.

(** ** The standalone client *)

Section CliFacts.
Context {W : Type} {adapter : Adapter W} {scanner : Cli.Scanner W}.
Import Const Cli.

Arguments command_bytes : simpl never.

Ltac unfold_cli :=
  unfold main_on, dispatch, open, close, stop, tilt_open, tilt_close,
    favorite, __aenter__, __aexit__, connect, scan, find_device,
    scanner_call, set_address, set_client, client_connect_call, disconnect,
    send_command, client_connected in *.

Lemma command_bytes_ok (a : Action) (ch : Z) :
  0 <= ch <= 255 -> command_bytes a ch = Ok [0xF1; Action_value a; ch].
Proof.
  intros Hch. unfold command_bytes. apply bytes_of_ok.
  pose proof (Action_value_range a).
  repeat constructor; unfold CMD_PREFIX; lia.
Qed.

Lemma channel_check (ch : Z) :
  (ch <? 1) || (ch >? 6) = false <-> 1 <= ch <= 6.
Proof.
  rewrite orb_false_iff, Z.ltb_ge, Z.gtb_ltb, Z.ltb_ge. lia.
Qed.

(** What [send_command] does, on every adapter: it touches neither the
    address nor the client, makes no connection call, writes only to
    the command characteristic, the frame with response and at most
    once more without, and never lets a [BleakError] out.  It returns
    [True] only for a channel in 1..6, after a write that did not raise
    and a sleep of half a second. *)
Theorem cli_send_command_outcomes (action : Action) (channel : Z)
    (s : LevolorRemote W) :
  address (snd (send_command action channel s)) = address s /\
  client (snd (send_command action channel s)) = client s /\
  (forall msg,
     fst (send_command action channel s) <> Raise (BleakError msg)) /\
  List.filter is_connect (trace_of (send_command action channel) s) = [] /\
  List.filter is_disconnect (trace_of (send_command action channel) s) = []
  /\
  (command_writes (trace_of (send_command action channel) s) = [] \/
   fallback_writes [0xF1; Action_value action; channel]
     (command_writes (trace_of (send_command action channel) s))) /\
  (fst (send_command action channel s) = Ok true ->
   1 <= channel <= 6 /\
   exists c (fallback : bool),
     client s = Some c /\
     trace_of (send_command action channel) s =
       [EvWriteGattChar c COMMAND_CHAR_UUID
                        [0xF1; Action_value action; channel] (Some true)] ++
       (if fallback
        then [EvWriteGattChar c COMMAND_CHAR_UUID
                              [0xF1; Action_value action; channel]
                              (Some false)]
        else []) ++
       [EvSleep 500]).
Proof.
  destruct (send_command action channel s) as [r s'] eqn:Hrun.
  assert (Hspec : exists tr,
    log (host s') = log (host s) ++ tr /\
    address s' = address s /\ client s' = client s /\
    (forall msg, r <> Raise (BleakError msg)) /\
    List.filter is_connect tr = [] /\ List.filter is_disconnect tr = [] /\
    (command_writes tr = [] \/
     fallback_writes [0xF1; Action_value action; channel]
                     (command_writes tr)) /\
    (r = Ok true ->
     1 <= channel <= 6 /\
     exists c (fallback : bool),
       client s = Some c /\
       tr = [EvWriteGattChar c COMMAND_CHAR_UUID
               [0xF1; Action_value action; channel] (Some true)] ++
            (if fallback
             then [EvWriteGattChar c COMMAND_CHAR_UUID
                     [0xF1; Action_value action; channel] (Some false)]
             else []) ++
            [EvSleep 500])).
  { destruct s as [[w l] addr cl].
    unfold_cli. unfold_py. cbn in Hrun. cbn [host log address client].
    destruct cl as [c|]; cbn in Hrun.
    2:{ simplify_eq. exists []. rewrite app_nil_r. cbn.
        repeat split; try done. by left. }
    destruct (client_is_connected c w); cbn in Hrun.
    2:{ simplify_eq. exists []. rewrite app_nil_r. cbn.
        repeat split; try done. by left. }
    destruct ((channel <? 1) || (channel >? 6)) eqn:Hch; cbn in Hrun.
    { simplify_eq. exists []. rewrite app_nil_r. cbn.
      repeat split; try done. by left. }
    apply channel_check in Hch.
    destruct (command_bytes action channel) as [cmd|e] eqn:Hcmd;
      cbn in Hrun.
    2:{ simplify_eq. exists []. rewrite app_nil_r. cbn.
        unfold command_bytes, bytes_of in Hcmd. case_match; simplify_eq.
        repeat split; try done. by left. }
    apply command_bytes_inv in Hcmd as [-> _].
    case_split.
    all: rewrite <- ?app_assoc; cbn.
    all: eexists; split; [reflexivity|]; cbn.
    all: do 2 (split; [done|]).
    all: split; [first [done|intros msg Hm; simplify_eq; cbn in *;
                        congruence]|].
    all: do 2 (split; [done|]).
    all: split; [right; unfold fallback_writes; auto|].
    all: try (intros Hr; discriminate Hr).
    all: intros _; split; [done|].
    all: first [by exists c, false | by exists c, true]. }
  destruct Hspec as (tr & Hlog & Ha & Hc & Hb & Hco & Hdi & Hw & Hok).
  rewrite (trace_of_intro _ _ tr) by by rewrite Hrun.
  cbn [fst snd]. do 6 (split; [done|]). exact Hok.
Qed.

(** The client falls back on any exception of the write with response,
    a [TimeoutError] as well as a [BleakError]: when the write without
    response then succeeds, [send_command] returns [True]. *)
Theorem cli_fallback_on_any_exception (action : Action) (channel : Z)
    (c : BLEDevice) (e : exn) (s : LevolorRemote W) :
  client s = Some c ->
  client_is_connected c (world (host s)) = true ->
  1 <= channel <= 6 ->
  fst (write_gatt_char c COMMAND_CHAR_UUID
         [0xF1; Action_value action; channel] (Some true) (world (host s)))
    = Some e ->
  (forall w,
     fst (write_gatt_char c COMMAND_CHAR_UUID
            [0xF1; Action_value action; channel] (Some false) w) = None) ->
  fst (send_command action channel s) = Ok true /\
  trace_of (send_command action channel) s =
    [EvWriteGattChar c COMMAND_CHAR_UUID
       [0xF1; Action_value action; channel] (Some true);
     EvWriteGattChar c COMMAND_CHAR_UUID
       [0xF1; Action_value action; channel] (Some false);
     EvSleep 500].
Proof.
  intros Hc Hconn Hch Hack Hnoack.
  destruct s as [[w l] addr cl]. cbn [host world client] in *. subst cl.
  assert (Heq : exists w',
    send_command action channel (mkRemote (mkHost w l) addr (Some c)) =
    (Ok true,
     mkRemote
       (mkHost w'
          (l ++ [EvWriteGattChar c COMMAND_CHAR_UUID
                   [0xF1; Action_value action; channel] (Some true);
                 EvWriteGattChar c COMMAND_CHAR_UUID
                   [0xF1; Action_value action; channel] (Some false);
                 EvSleep 500])) addr (Some c))).
  { unfold_cli. unfold_py. cbn. rewrite Hconn. cbn.
    replace ((channel <? 1) || (channel >? 6)) with false
      by (symmetry; by apply channel_check).
    cbn. rewrite command_bytes_ok by lia. cbn.
    destruct (write_gatt_char c COMMAND_CHAR_UUID _ (Some true) w)
      as [r1 w1] eqn:E1. cbn in Hack. subst r1. cbn.
    destruct (write_gatt_char c COMMAND_CHAR_UUID _ (Some false) w1)
      as [r2 w2] eqn:E2.
    pose proof (Hnoack w1) as H2. rewrite E2 in H2. cbn in H2. subst r2.
    cbn. eexists. by rewrite <- !app_assoc. }
  destruct Heq as [w' Heq].
  rewrite (trace_of_intro _ _
             [EvWriteGattChar c COMMAND_CHAR_UUID
                [0xF1; Action_value action; channel] (Some true);
              EvWriteGattChar c COMMAND_CHAR_UUID
                [0xF1; Action_value action; channel] (Some false);
              EvSleep 500]) by by rewrite Heq.
  by rewrite Heq.
Qed.

End CliFacts.

Lemma cli_rejects_channel_witness :
  fst (Cli.send_command (adapter := Script.scripted Script.healthy)
         Const.FAVORITE 0 Script.cli0) = Ok false /\
  log (Cli.host (snd (Cli.send_command
                        (adapter := Script.scripted Script.healthy)
                        Const.FAVORITE 0 Script.cli0))) = [].
Proof.
  apply (cli_rejects_channel (adapter := Script.scripted Script.healthy)
           Const.FAVORITE 0 Script.cli0).
  lia.
Defined.

Lemma cli_send_command_outcomes_witness :
  1 <= 6 <= 6 /\
  exists c (fallback : bool),
    Cli.client Script.cli0 = Some c /\
    trace_of (Cli.send_command (adapter := Script.scripted Script.no_ack)
                Const.OPEN 6) Script.cli0 =
      [EvWriteGattChar c Const.COMMAND_CHAR_UUID [0xF1; 0x01; 6]
                       (Some true)] ++
      (if fallback
       then [EvWriteGattChar c Const.COMMAND_CHAR_UUID [0xF1; 0x01; 6]
                             (Some false)]
       else []) ++
      [EvSleep 500].
Proof.
  apply (cli_send_command_outcomes
           (adapter := Script.scripted Script.no_ack) Const.OPEN 6
           Script.cli0).
  reflexivity.
Defined.

Lemma cli_fallback_on_any_exception_witness :
  fst (Cli.send_command (adapter := Script.scripted Script2.ack_timeout)
         Const.CLOSE 2 Script.cli0) = Ok true /\
  trace_of (Cli.send_command (adapter := Script.scripted Script2.ack_timeout)
              Const.CLOSE 2) Script.cli0 =
    [EvWriteGattChar Script.remote Const.COMMAND_CHAR_UUID [0xF1; 0x02; 2]
                     (Some true);
     EvWriteGattChar Script.remote Const.COMMAND_CHAR_UUID [0xF1; 0x02; 2]
                     (Some false);
     EvSleep 500].
Proof.
  apply (cli_fallback_on_any_exception
           (adapter := Script.scripted Script2.ack_timeout)
           Const.CLOSE 2 Script.remote TimeoutError Script.cli0).
  - reflexivity.
  - reflexivity.
  - lia.
  - reflexivity.
  - intros w. reflexivity.
Defined.

(** ** Connecting, scanning and [main] in the standalone client *)

Section CliSession.
Context {W : Type} {adapter : Adapter W} {scanner : Cli.Scanner W}.
Import Const Cli.

Arguments command_bytes : simpl never.

Ltac unfold_session :=
  unfold main_on, dispatch, open, close, stop, tilt_open, tilt_close,
    favorite, __aenter__, __aexit__, connect, scan, find_device,
    scanner_call, set_address, set_client, client_connect_call, disconnect,
    client_connected in *.

(** [connect], on every adapter: it never writes to the command
    characteristic and never disconnects; when it returns [True] the
    client is the one of the stored address and the calls made are the
    connect and the init write. *)
Lemma connect_spec (timeout : Z) (s s' : LevolorRemote W) (r : Result bool) :
  connect timeout s = (r, s') ->
  exists tr,
    log (host s') = log (host s) ++ tr /\
    command_writes tr = [] /\
    List.filter is_disconnect tr = [] /\
    (r = Ok true ->
     exists addr,
       address s' = Some addr /\
       client s' = Some (BleakClient addr) /\
       tr = [EvConnect (BleakClient addr);
             EvWriteGattChar (BleakClient addr) INIT_CHAR_UUID [0x88; 0xFA]
                             None]).
Proof.
  destruct s as [[w l] addr cl]. intros H.
  unfold_session. unfold_py. cbn in H.
  case_split.
  all: rewrite <- ?app_assoc; cbn.
  all: first [eexists; split; [reflexivity|]; cbn
             |exists []; rewrite app_nil_r; split; [reflexivity|]; cbn].
  all: do 2 (split; [done|]).
  all: try (intros Hr; discriminate Hr).
  all: intros _; by eexists.
Qed.

(** In the client a failure of the init write is swallowed: with a
    stored address, once the connection is up [connect] returns [True]
    whatever the init write does, the client being the one of that
    address.  (The coordinator fails the attempt on the same error.) *)
Theorem cli_connect_ignores_init_failure (timeout : Z) (addr : string)
    (s : LevolorRemote W) :
  address s = Some addr ->
  fst (client_connect (BleakClient addr) (world (host s))) = None ->
  client_is_connected (BleakClient addr)
    (snd (client_connect (BleakClient addr) (world (host s)))) = true ->
  fst (connect timeout s) = Ok true /\
  address (snd (connect timeout s)) = Some addr /\
  client (snd (connect timeout s)) = Some (BleakClient addr) /\
  trace_of (connect timeout) s =
    [EvConnect (BleakClient addr);
     EvWriteGattChar (BleakClient addr) INIT_CHAR_UUID [0x88; 0xFA] None].
Proof.
  destruct s as [[w l] a cl]. cbn [host world address].
  intros -> Hc Hi.
  assert (Heq : exists w',
    connect timeout (mkRemote (mkHost w l) (Some addr) cl) =
    (Ok true,
     mkRemote
       (mkHost w'
          (l ++ [EvConnect (BleakClient addr);
                 EvWriteGattChar (BleakClient addr) INIT_CHAR_UUID
                                 [0x88; 0xFA] None]))
       (Some addr) (Some (BleakClient addr)))).
  { unfold_session. unfold_py. cbn.
    destruct (client_connect (BleakClient addr) w) as [r1 w1].
    cbn in Hc, Hi. subst r1. cbn. rewrite Hi. cbn.
    destruct (write_gatt_char (BleakClient addr) INIT_CHAR_UUID INIT_PAYLOAD
                None w1) as [[e|] w2]; cbn;
      eexists; by rewrite <- !app_assoc. }
  destruct Heq as [w' Heq].
  rewrite (trace_of_intro _ _
             [EvConnect (BleakClient addr);
              EvWriteGattChar (BleakClient addr) INIT_CHAR_UUID
                              [0x88; 0xFA] None]) by by rewrite Heq.
  by rewrite Heq.
Qed.

(** Without a stored address [connect] asks the scanner for a device
    whose name matches.  When there is none it returns [False] having
    made no client call and stored nothing.  When there is one, its
    address is stored and the connection goes to the client of that
    address. *)
Theorem cli_connect_without_address (timeout : Z) (s : LevolorRemote W) :
  address s = None ->
  (fst (scanner_find_device_by_filter device_matches timeout
          (world (host s))) = Ok None ->
   fst (connect timeout s) = Ok false /\
   address (snd (connect timeout s)) = None /\
   client (snd (connect timeout s)) = client s /\
   trace_of (connect timeout) s = []) /\
  (forall d,
     fst (scanner_find_device_by_filter device_matches timeout
            (world (host s))) = Ok (Some d) ->
     address (snd (connect timeout s)) = Some (dev_address d) /\
     client (snd (connect timeout s))
       = Some (BleakClient (dev_address d)) /\
     exists rest,
       trace_of (connect timeout) s
         = EvConnect (BleakClient (dev_address d)) :: rest).
Proof.
  destruct s as [[w l] a cl]. cbn [host world address client].
  intros ->. split.
  - intros Hf.
    assert (Heq : exists w',
      connect timeout (mkRemote (mkHost w l) None cl) =
        (Ok false, mkRemote (mkHost w' l) None cl)).
    { unfold_session. unfold_py. cbn.
      destruct (scanner_find_device_by_filter device_matches timeout w)
        as [r1 w1]. cbn in Hf. subst r1. cbn. by eexists. }
    destruct Heq as [w' Heq].
    rewrite (trace_of_intro _ _ []) by (rewrite Heq; cbn; by rewrite app_nil_r).
    by rewrite Heq.
  - intros d Hf.
    destruct (connect timeout (mkRemote (mkHost w l) None cl))
      as [r s'] eqn:Hrun.
    assert (Hspec : address s' = Some (dev_address d) /\
                    client s' = Some (BleakClient (dev_address d)) /\
                    exists rest,
                      log (host s')
                        = l ++ EvConnect (BleakClient (dev_address d))
                               :: rest).
    { unfold_session. unfold_py. cbn in Hrun.
      destruct (scanner_find_device_by_filter device_matches timeout w)
        as [r1 w1]. cbn in Hf. subst r1. cbn in Hrun.
      case_split.
      all: rewrite <- ?app_assoc; cbn.
      all: do 2 (split; [done|]); by eexists. }
    destruct Hspec as (Ha & Hc & rest & Hlog).
    cbn [snd]. do 2 (split; [done|]). exists rest.
    apply trace_of_intro. by rewrite Hrun.
Qed.

Lemma send_command_refused (action : Action) (channel : Z)
    (s : LevolorRemote W) :
  ~ 1 <= channel <= 6 -> send_command action channel s = (Ok false, s).
Proof.
  intros Hch. destruct s as [[w l] a cl].
  unfold send_command, client_connected. unfold_py. cbn.
  destruct cl as [c|]; [|done]. cbn.
  destruct (client_is_connected c w); [|done]. cbn.
  destruct (channel <? 1) eqn:H1; [done|].
  destruct (channel >? 6) eqn:H6; [done|]. lia.
Qed.

Lemma disconnect_spec (s s' : LevolorRemote W) (r : Result unit) :
  disconnect s = (r, s') ->
  exists tr,
    log (host s') = log (host s) ++ tr /\ command_writes tr = [].
Proof.
  destruct s as [[w l] a cl]. intros H.
  unfold disconnect, client_connected in H. unfold_py. cbn in H.
  case_split.
  all: first [eexists; split; [reflexivity|]; done
             |exists []; rewrite app_nil_r; split; done].
Qed.

(** [main] checks the channel only inside [send_command], after it has
    connected.  With a command other than [scan] and a channel outside
    1..6 it is [connect] followed, when that returned [True], by
    [disconnect]: the remote is connected to and armed, no command
    frame is written, and the connection is closed again. *)
Theorem cli_main_invalid_channel (args : Args) (s : LevolorRemote W) :
  args_command args <> cmd_scan ->
  ~ 1 <= args_channel args <= 6 ->
  main_on args s =
    (let '(r, s1) := connect 10000 s in
     match r with
     | Ok true => disconnect s1
     | Ok false => (Ok tt, s1)
     | Raise e => (Raise e, s1)
     end) /\
  command_writes (trace_of (main_on args) s) = [].
Proof.
  intros Hcmd Hch.
  assert (Heq : main_on args s =
    (let '(r, s1) := connect 10000 s in
     match r with
     | Ok true => disconnect s1
     | Ok false => (Ok tt, s1)
     | Raise e => (Raise e, s1)
     end)).
  { unfold main_on, dispatch, open, close, stop, tilt_open, tilt_close,
      favorite.
    destruct (args_command args); [done|..].
    all: unfold bind, try_, lift_result, ret.
    all: destruct (connect 10000 s) as [[[|]|e] s1];
      cbv beta iota; cbn [negb]; try done.
    all: rewrite send_command_refused by done.
    all: cbv beta iota.
    all: by destruct (disconnect s1) as [[[]|e] s2]. }
  split; [done|].
  unfold trace_of. rewrite Heq.
  destruct (connect 10000 s) as [r s1] eqn:Hconn.
  destruct (connect_spec _ _ _ _ Hconn) as (tr1 & Hlog1 & Hw1 & _).
  destruct r as [[|]|e]; cbn [snd get_host Remote_HasHost].
  - destruct (disconnect s1) as [r2 s2] eqn:Hdisc.
    destruct (disconnect_spec _ _ _ Hdisc) as (tr2 & Hlog2 & Hw2).
    cbn [snd]. rewrite Hlog2, Hlog1, <- app_assoc, drop_app_length.
    by rewrite command_writes_app, Hw1, Hw2.
  - by rewrite Hlog1, drop_app_length.
  - by rewrite Hlog1, drop_app_length.
Qed.

Lemma scan_spec (timeout : Z) (s s' : LevolorRemote W)
    (r : Result (list BLEDevice)) :
  scan timeout s = (r, s') ->
  address s' = address s /\ client s' = client s /\
  (exists tr, log (host s') = log (host s) ++ tr /\ adapter_calls tr = []) /\
  forall devices, r = Ok devices ->
    exists w,
      devices = List.filter device_matches (scanner_discovered_devices w).
Proof.
  destruct s as [[w l] a cl]. cbn [host log address client]. intros Hrun.
  unfold scan, scanner_call in Hrun. unfold_py. cbn in Hrun.
  case_split.
  all: do 2 (split; [done|]).
  all: split;
    [first [eexists; split; [reflexivity|]; done
           |exists []; rewrite app_nil_r; split; done]|].
  all: intros devices Hd; simplify_eq; by eexists.
Qed.

(** [scan] and [main] with the [scan] command make no client call at
    all, and [scan] leaves the address and the client alone.  The
    devices [scan] returns are devices the scanner has seen, in the
    order it reports them, and each has a name that contains
    "Levolor". *)
Theorem cli_scan_result (timeout : Z) (s : LevolorRemote W) :
  address (snd (scan timeout s)) = address s /\
  client (snd (scan timeout s)) = client s /\
  adapter_calls (trace_of (scan timeout) s) = [] /\
  (forall args, args_command args = cmd_scan ->
                adapter_calls (trace_of (main_on args) s) = []) /\
  (forall devices,
     fst (scan timeout s) = Ok devices ->
     (exists w,
        devices = List.filter device_matches (scanner_discovered_devices w))
     /\
     Forall (fun d => exists n pre post,
                        dev_name d = Some n /\
                        n = pre +:+ LEVOLOR_DEVICE_NAME +:+ post) devices).
Proof.
  destruct (scan timeout s) as [r s'] eqn:Hrun.
  destruct (scan_spec _ _ _ _ Hrun) as (Ha & Hc & (tr & Hlog & Htr) & Hdev).
  assert (Ht : trace_of (scan timeout) s = tr).
  { apply trace_of_intro. by rewrite Hrun. }
  cbn [fst snd]. rewrite Ht. do 3 (split; [done|]). split.
  - intros args Hargs. unfold main_on. rewrite Hargs.
    unfold trace_of, bind, ret.
    destruct (scan 10000 s) as [r0 s0] eqn:Hrun0.
    destruct (scan_spec _ _ _ _ Hrun0) as (_ & _ & (tr0 & Hlog0 & Htr0) & _).
    destruct r0; cbn [snd get_host Remote_HasHost];
      by rewrite Hlog0, drop_app_length.
  - intros devices Hd. destruct (Hdev _ Hd) as [w ->]. split; [by exists w|].
    apply Forall_forall. intros d Hin.
    apply list_elem_of_In, filter_In in Hin as [_ Hm].
    unfold device_matches in Hm.
    destruct (dev_name d) as [n|]; [|done].
    apply andb_true_iff in Hm as [_ Hm].
    apply str_in_split in Hm as (pre & post & Hn).
    exists n, pre, post. by split.
Qed.

End CliSession.

Lemma cli_connect_ignores_init_failure_witness :
  fst (Cli.connect (adapter := Script.scripted Script2.no_arm)
         (scanner := Script2.scripted_scanner None []) 10000
         (Cli.mkRemote Script.fresh_host (Some "AA:BB:CC:DD:EE:FF"%string)
                       None)) = Ok true /\
  Cli.address
    (snd (Cli.connect (adapter := Script.scripted Script2.no_arm)
            (scanner := Script2.scripted_scanner None []) 10000
            (Cli.mkRemote Script.fresh_host
                          (Some "AA:BB:CC:DD:EE:FF"%string) None)))
    = Some "AA:BB:CC:DD:EE:FF"%string /\
  Cli.client
    (snd (Cli.connect (adapter := Script.scripted Script2.no_arm)
            (scanner := Script2.scripted_scanner None []) 10000
            (Cli.mkRemote Script.fresh_host
                          (Some "AA:BB:CC:DD:EE:FF"%string) None)))
    = Some (Cli.BleakClient "AA:BB:CC:DD:EE:FF") /\
  trace_of (Cli.connect (adapter := Script.scripted Script2.no_arm)
              (scanner := Script2.scripted_scanner None []) 10000)
           (Cli.mkRemote Script.fresh_host
                         (Some "AA:BB:CC:DD:EE:FF"%string) None) =
    [EvConnect (Cli.BleakClient "AA:BB:CC:DD:EE:FF");
     EvWriteGattChar (Cli.BleakClient "AA:BB:CC:DD:EE:FF")
                     Const.INIT_CHAR_UUID [0x88; 0xFA] None].
Proof.
  apply (cli_connect_ignores_init_failure
           (adapter := Script.scripted Script2.no_arm)
           (scanner := Script2.scripted_scanner None []) 10000
           "AA:BB:CC:DD:EE:FF"
           (Cli.mkRemote Script.fresh_host
                         (Some "AA:BB:CC:DD:EE:FF"%string) None)).
  - reflexivity.
  - reflexivity.
  - reflexivity.
Defined.

Lemma cli_connect_without_address_witness :
  Cli.address
    (snd (Cli.connect (adapter := Script.scripted Script.healthy)
            (scanner := Script2.scripted_scanner (Some Script.moved) [])
            10000 (Cli.mkRemote Script.fresh_host None None)))
    = Some "11:22:33:44:55:66"%string /\
  Cli.client
    (snd (Cli.connect (adapter := Script.scripted Script.healthy)
            (scanner := Script2.scripted_scanner (Some Script.moved) [])
            10000 (Cli.mkRemote Script.fresh_host None None)))
    = Some (Cli.BleakClient "11:22:33:44:55:66") /\
  exists rest,
    trace_of (Cli.connect (adapter := Script.scripted Script.healthy)
                (scanner := Script2.scripted_scanner (Some Script.moved) [])
                10000)
             (Cli.mkRemote Script.fresh_host None None)
      = EvConnect (Cli.BleakClient "11:22:33:44:55:66") :: rest.
Proof.
  apply (proj2 (cli_connect_without_address
                  (adapter := Script.scripted Script.healthy)
                  (scanner := Script2.scripted_scanner (Some Script.moved) [])
                  10000 (Cli.mkRemote Script.fresh_host None None)
                  eq_refl) Script.moved).
  reflexivity.
Defined.

Lemma cli_main_invalid_channel_witness :
  trace_of (Cli.main_on (adapter := Script.scripted Script.healthy)
              (scanner := Script2.scripted_scanner None [])
              (Cli.mkArgs Cli.cmd_open 7
                          (Some "AA:BB:CC:DD:EE:FF"%string)))
           (Cli.mkRemote Script.fresh_host
                         (Some "AA:BB:CC:DD:EE:FF"%string) None) =
    [EvConnect (Cli.BleakClient "AA:BB:CC:DD:EE:FF");
     EvWriteGattChar (Cli.BleakClient "AA:BB:CC:DD:EE:FF")
                     Const.INIT_CHAR_UUID [0x88; 0xFA] None;
     EvDisconnect (Cli.BleakClient "AA:BB:CC:DD:EE:FF")] /\
  command_writes
    (trace_of (Cli.main_on (adapter := Script.scripted Script.healthy)
                 (scanner := Script2.scripted_scanner None [])
                 (Cli.mkArgs Cli.cmd_open 7
                             (Some "AA:BB:CC:DD:EE:FF"%string)))
              (Cli.mkRemote Script.fresh_host
                            (Some "AA:BB:CC:DD:EE:FF"%string) None)) = [].
Proof.
  split; [reflexivity|].
  apply (cli_main_invalid_channel
           (adapter := Script.scripted Script.healthy)
           (scanner := Script2.scripted_scanner None [])
           (Cli.mkArgs Cli.cmd_open 7 (Some "AA:BB:CC:DD:EE:FF"%string))
           (Cli.mkRemote Script.fresh_host
                         (Some "AA:BB:CC:DD:EE:FF"%string) None)).
  - discriminate.
  - cbn. lia.
Defined.

Lemma cli_scan_result_witness :
  (exists w,
     [Script.remote] =
     List.filter Cli.device_matches
       (Cli.scanner_discovered_devices
          (Scanner := Script2.scripted_scanner None
                        [Script2.lamp; Script.remote; Script2.unnamed]) w))
  /\
  Forall (fun d => exists n pre post,
                     dev_name d = Some n /\
                     n = pre +:+ Const.LEVOLOR_DEVICE_NAME +:+ post)
         [Script.remote].
Proof.
  apply (cli_scan_result (adapter := Script.scripted Script.healthy)
           (scanner := Script2.scripted_scanner None
                         [Script2.lamp; Script.remote; Script2.unnamed])
           10000 (Cli.mkRemote Script.fresh_host None None)).
  reflexivity.
Defined.

(** ** The config flow *)

Section FlowFacts.
Context {W : Type} {adapter : Adapter W} {flow_host : ConfigFlow.FlowHost}.
Import Const ConfigFlow.

Lemma collect_lookup (discoveries : list ServiceInfo) :
  forall (table : gmap string ServiceInfo) (addr : string)
         (info : ServiceInfo),
    collect discoveries table !! addr = Some info ->
    table !! addr = Some info \/
    (In info discoveries /\ Coordinator.name_matches info = true /\
     si_address info = addr).
Proof.
  induction discoveries as [|d rest IH]; intros table addr info H.
  - by left.
  - cbn in H. apply IH in H as [H|(Hin & Hm & Ha)].
    + destruct (Coordinator.name_matches d) eqn:Hd; [|by left].
      destruct (decide (si_address d = addr)) as [Heq|Hne].
      * subst addr. rewrite lookup_insert_eq in H. simplify_eq.
        right. split; [by left|done].
      * rewrite lookup_insert_ne in H by done. by left.
    + right. split; [by right|done].
Qed.

Lemma collect_keeps (discoveries : list ServiceInfo) :
  forall (table : gmap string ServiceInfo) (addr : string),
    is_Some (table !! addr) -> is_Some (collect discoveries table !! addr).
Proof.
  induction discoveries as [|d rest IH]; intros table addr H; [done|].
  cbn. apply IH. destruct (Coordinator.name_matches d); [|done].
  destruct (decide (si_address d = addr)) as [<-|Hne].
  - rewrite lookup_insert_eq. by eexists.
  - by rewrite lookup_insert_ne.
Qed.

Lemma collect_finds (discoveries : list ServiceInfo) :
  forall (table : gmap string ServiceInfo) (info : ServiceInfo),
    In info discoveries -> Coordinator.name_matches info = true ->
    is_Some (collect discoveries table !! si_address info).
Proof.
  induction discoveries as [|d rest IH]; intros table info Hin Hm; [done|].
  destruct Hin as [->|Hin]; [|by apply IH].
  cbn. rewrite Hm. apply collect_keeps. rewrite lookup_insert_eq.
  by eexists.
Qed.

Lemma user_step_scan (s : LevolorBLEConfigFlow W) :
  async_step_user None s =
    (Ok (if decide (collect (async_discovered_service_info (world (hass s)))
                            ∅ = ∅)
         then Abort "no_devices_found"
         else Form "user"
                (AddressIn
                   (map_imap (fun addr info =>
                                Some (option_label info addr))
                      (collect
                         (async_discovered_service_info (world (hass s)))
                         ∅)))
                []),
     mkFlow (mkHost (world (hass s))
                    (log (hass s) ++ [EvDiscoveredServiceInfo]))
            (_discovery_info s)
            (collect (async_discovered_service_info (world (hass s))) ∅)
            (unique_id s) (title_placeholders s)).
Proof.
  unfold async_step_user, set_discovered_devices, discovered_service_info,
    record, bind, modify, get, ret. cbn.
  by destruct (decide (collect _ ∅ = ∅)).
Qed.

Lemma user_table_sound (s : LevolorBLEConfigFlow W) (addr : string)
    (info : ServiceInfo) :
  _discovered_devices (snd (async_step_user None s)) !! addr = Some info ->
  In info (async_discovered_service_info (world (hass s))) /\
  Coordinator.name_matches info = true /\
  si_address info = addr.
Proof.
  rewrite user_step_scan. cbn [snd _discovered_devices]. intros H.
  apply collect_lookup in H as [H|H]; [|done].
  by rewrite lookup_empty in H.
Qed.

(** The first form of the user flow offers exactly the discovered
    devices whose name contains "Levolor", by address: every address in
    the table belongs to such a service info, which is stored under its
    own address, and every such service info has its address in the
    table and among the options.  When no discovered name matches, the
    flow aborts with "no_devices_found" and shows no form. *)
Theorem user_step_offers_levolor_devices (s : LevolorBLEConfigFlow W) :
  (forall addr info,
     _discovered_devices (snd (async_step_user None s)) !! addr = Some info ->
     In info (async_discovered_service_info (world (hass s))) /\
     Coordinator.name_matches info = true /\
     si_address info = addr) /\
  (forall info,
     In info (async_discovered_service_info (world (hass s))) ->
     Coordinator.name_matches info = true ->
     exists stored options,
       _discovered_devices (snd (async_step_user None s)) !! si_address info
         = Some stored /\
       fst (async_step_user None s) = Ok (Form "user" (AddressIn options) [])
       /\ options !! si_address info
          = Some (option_label stored (si_address info))) /\
  ((forall info,
      In info (async_discovered_service_info (world (hass s))) ->
      Coordinator.name_matches info = false) ->
   fst (async_step_user None s) = Ok (Abort "no_devices_found")).
Proof.
  split; [apply user_table_sound|].
  rewrite user_step_scan. cbn [fst snd _discovered_devices].
  set (ds := async_discovered_service_info (world (hass s))).
  split.
  - intros info Hin Hm.
    pose proof (collect_finds ds ∅ info Hin Hm) as [x Hx].
    exists x.
    destruct (decide (collect ds ∅ = ∅)) as [He|Hne].
    { rewrite He, lookup_empty in Hx. done. }
    eexists. split; [done|]. split; [done|].
    rewrite map_lookup_imap, Hx. done.
  - intros Hnone.
    destruct (decide (collect ds ∅ = ∅)) as [He|Hne]; [done|].
    apply map_choose in Hne as (addr & info & H).
    apply collect_lookup in H as [H|(Hin & Hm & _)].
    + by rewrite lookup_empty in H.
    + rewrite (Hnone _ Hin) in Hm. discriminate Hm.
Qed.

(** Choosing an offered address, when the host does not abort on it,
    leads to the "configure" form, and answering that form creates the
    entry titled with the blind's name, whose data are the chosen
    address and the channel and name typed, the unique id being the
    address.  Choosing an address that is not in the table leads to the
    same form, but answering it fails the assertion on the discovery
    info. *)
Theorem chosen_device_becomes_entry (s0 : LevolorBLEConfigFlow W)
    (addr : string) (input : BlindInput) :
  unique_id_aborts addr = None ->
  let s := snd (async_step_user None s0) in
  fst (async_step_user (Some addr) s) = Ok (Form "configure" blind_schema [])
  /\
  unique_id (snd (async_step_user (Some addr) s)) = Some addr /\
  (is_Some (_discovered_devices s !! addr) ->
   fst (async_step_configure (Some input)
          (snd (async_step_user (Some addr) s))) =
     Ok (CreateEntry (input_blind_name input)
           (mkEntryData addr (input_channel input)
                        (input_blind_name input)))) /\
  (_discovered_devices s !! addr = None ->
   fst (async_step_configure (Some input)
          (snd (async_step_user (Some addr) s))) = Raise AssertionError).
Proof.
  intros Hid s.
  pose proof (user_table_sound s0) as Htable. fold s in Htable.
  unfold async_step_user at 1 2 3 4, async_step_configure, set_unique_id,
    set_discovery_info, bind, modify, get, ret, raise.
  cbn. rewrite Hid. cbn. do 2 (split; [done|]). split.
  - intros [info Hinfo]. rewrite Hinfo.
    destruct (Htable _ _ Hinfo) as (_ & _ & <-). done.
  - intros Hnone. by rewrite Hnone.
Qed.

End FlowFacts.

Section FlowEntryFacts.
Context {W : Type} {adapter : Adapter W} {flow_host : ConfigFlow.FlowHost}.
Import Const ConfigFlow.

(** A remote found by Bluetooth discovery, when the host does not
    abort on its address: the flow shows the confirmation form with the
    remote's name (or "Levolor" when it has none) and address, and the
    answer to the form creates the entry for that address with the
    channel and the name typed.  No call to the BLE stack is made. *)
Theorem bluetooth_discovery_becomes_entry (s : LevolorBLEConfigFlow W)
    (discovery_info : ServiceInfo) (input : BlindInput) :
  unique_id_aborts (si_address discovery_info) = None ->
  fst (async_step_bluetooth discovery_info s) =
    Ok (Form "bluetooth_confirm" blind_schema
          [("name"%string, name_or_default (si_name discovery_info));
           ("address"%string, si_address discovery_info)]) /\
  unique_id (snd (async_step_bluetooth discovery_info s))
    = Some (si_address discovery_info) /\
  hass (snd (async_step_bluetooth discovery_info s)) = hass s /\
  async_step_bluetooth_confirm (Some input)
    (snd (async_step_bluetooth discovery_info s)) =
    (Ok (CreateEntry (input_blind_name input)
           (mkEntryData (si_address discovery_info) (input_channel input)
                        (input_blind_name input))),
     snd (async_step_bluetooth discovery_info s)).
Proof.
  intros Hid.
  unfold async_step_bluetooth, async_step_bluetooth_confirm, set_unique_id,
    set_discovery_info, set_title_placeholders, bind, modify, get, ret.
  cbn. rewrite Hid. cbn. by destruct s as [[w l] ? ? ? ?].
Qed.

(** The unique id of a flow is the remote's address alone.  When the
    host aborts on that address (an entry for the remote exists), both
    ways into the flow end with that abort, whatever channel was meant,
    and store no discovery info. *)
Theorem configured_remote_aborts (s : LevolorBLEConfigFlow W)
    (discovery_info : ServiceInfo) (reason : string) :
  unique_id_aborts (si_address discovery_info) = Some reason ->
  fst (async_step_bluetooth discovery_info s) = Ok (Abort reason) /\
  fst (async_step_user (Some (si_address discovery_info)) s)
    = Ok (Abort reason) /\
  _discovery_info (snd (async_step_bluetooth discovery_info s))
    = _discovery_info s /\
  _discovery_info (snd (async_step_user (Some (si_address discovery_info)) s))
    = _discovery_info s.
Proof.
  intros Hid.
  unfold async_step_bluetooth, async_step_user, set_unique_id, bind, modify,
    ret. cbn. by rewrite Hid.
Qed.

End FlowEntryFacts.

Lemma user_step_offers_levolor_devices_witness :
  exists stored options,
    ConfigFlow._discovered_devices
      (snd (ConfigFlow.async_step_user
              (adapter := Script.scripted Script.rotated)
              (flow_host := Script3.nothing_configured) None Script3.flow0))
      !! "11:22:33:44:55:66"%string = Some stored /\
    fst (ConfigFlow.async_step_user
           (adapter := Script.scripted Script.rotated)
           (flow_host := Script3.nothing_configured) None Script3.flow0)
      = Ok (ConfigFlow.Form "user" (ConfigFlow.AddressIn options) []) /\
    options !! "11:22:33:44:55:66"%string
      = Some (ConfigFlow.option_label stored "11:22:33:44:55:66").
Proof.
  apply (proj1 (proj2 (user_step_offers_levolor_devices
                         (adapter := Script.scripted Script.rotated)
                         (flow_host := Script3.nothing_configured)
                         Script3.flow0)) Script3.moved_info).
  - right. left. reflexivity.
  - reflexivity.
Defined.

Lemma chosen_device_becomes_entry_witness :
  fst (ConfigFlow.async_step_configure
         (Some (ConfigFlow.mkBlindInput "Bedroom" 4))
         (snd (ConfigFlow.async_step_user
                 (adapter := Script.scripted Script.rotated)
                 (flow_host := Script3.nothing_configured)
                 (Some "11:22:33:44:55:66"%string)
                 (snd (ConfigFlow.async_step_user
                         (adapter := Script.scripted Script.rotated)
                         (flow_host := Script3.nothing_configured)
                         None Script3.flow0))))) =
    Ok (ConfigFlow.CreateEntry "Bedroom"
          (ConfigFlow.mkEntryData "11:22:33:44:55:66" 4 "Bedroom")).
Proof.
  apply (chosen_device_becomes_entry
           (adapter := Script.scripted Script.rotated)
           (flow_host := Script3.nothing_configured)
           Script3.flow0 "11:22:33:44:55:66"
           (ConfigFlow.mkBlindInput "Bedroom" 4)).
  - reflexivity.
  - eexists. reflexivity.
Defined.

Lemma bluetooth_discovery_becomes_entry_witness :
  fst (ConfigFlow.async_step_bluetooth
         (flow_host := Script3.nothing_configured)
         Script3.moved_info Script3.flow0) =
    Ok (ConfigFlow.Form "bluetooth_confirm" ConfigFlow.blind_schema
          [("name"%string, "Levolor Remote"%string);
           ("address"%string, "11:22:33:44:55:66"%string)]).
Proof.
  apply (bluetooth_discovery_becomes_entry
           (flow_host := Script3.nothing_configured)
           Script3.flow0 Script3.moved_info
           (ConfigFlow.mkBlindInput "Bedroom" 4)).
  reflexivity.
Defined.

Lemma configured_remote_aborts_witness :
  fst (ConfigFlow.async_step_bluetooth
         (flow_host := Script3.configured "11:22:33:44:55:66")
         Script3.moved_info Script3.flow0)
    = Ok (ConfigFlow.Abort "already_configured") /\
  fst (ConfigFlow.async_step_user
         (adapter := Script.scripted Script.rotated)
         (flow_host := Script3.configured "11:22:33:44:55:66")
         (Some "11:22:33:44:55:66"%string) Script3.flow0)
    = Ok (ConfigFlow.Abort "already_configured").
Proof.
  destruct (configured_remote_aborts
              (adapter := Script.scripted Script.rotated)
              (flow_host := Script3.configured "11:22:33:44:55:66")
              Script3.flow0 Script3.moved_info "already_configured")
    as (H1 & H2 & _).
  - reflexivity.
  - exact (conj H1 H2).
Defined.
